(** * Reversible interrupt-driven clock (ATmega328P firmware)

    Shallow embedding of the two clock programs of the repository:
    the seconds clock (16-bit Timer1, 8-bit counter [time], LIMIT 60) and
    the milliseconds clock (8-bit Timer0, 16-bit counter [time], LIMIT 60000).
    The two sources are line-by-line duplicates that differ only in the
    widths and constants collected below, so one embedding is indexed by
    the [variant].

    Unsigned C integers are [Z] values reduced modulo [2 ^ width]; the
    globals and the I/O registers the handlers touch are the fields of
    one record that is threaded through the handlers. *)

From Stdlib Require Import ZArith Bool List Lia.
Import ListNotations.
Local Open Scope Z_scope.

(** ** Program constants *)

Inductive variant : Type :=
| Seconds   (* Timer1, [volatile uint8_t time] *)
| Millis.   (* Timer0, [volatile uint16_t time] *)

(** Width of [time] and [step]: [uint8_t] / [uint16_t]. *)
Definition time_bits (v : variant) : Z :=
  match v with Seconds => 8 | Millis => 16 end.

(** Width of the counter register: [TCNT1] is 16 bits, [TCNT0] is 8. *)
Definition tcnt_bits (v : variant) : Z :=
  match v with Seconds => 16 | Millis => 8 end.

(** [#define TIMER_TOP (15625 - 1)] / [#define TIMER_TOP (125 - 1)]. *)
Definition TIMER_TOP (v : variant) : Z :=
  match v with Seconds => 15625 - 1 | Millis => 125 - 1 end.

(** The constant of the ascending-wrap test, [time == 60] / [time == 60000]. *)
Definition LIMIT (v : variant) : Z :=
  match v with Seconds => 60 | Millis => 60000 end.

(** The constant of the descending-wrap test, [time == 255] / [time == 65535]. *)
Definition UNDERFLOW (v : variant) : Z :=
  match v with Seconds => 255 | Millis => 65535 end.

(** The value stored by the descending wrap, [time = 59] / [time = 59999]. *)
Definition LAST (v : variant) : Z :=
  match v with Seconds => 59 | Millis => 59999 end.

(** The bits of [TCCRnB] the start/stop button toggles:
    [(1<<1) | (1<<0)] for Timer1, [1<<1] for Timer0. *)
Definition cs_mask (v : variant) : Z :=
  match v with
  | Seconds => Z.lor (Z.shiftl 1 1) (Z.shiftl 1 0)
  | Millis => Z.shiftl 1 1
  end.

(** The value [main] writes to [TCCRnB]:
    [0b00001011] (CTC, prescaler 64) / [0b00000010] (prescaler 8). *)
Definition TCCRB_config (v : variant) : Z :=
  match v with Seconds => 0x0B | Millis => 0x02 end.

(** Conversion to an unsigned integer of [w] bits. *)
Definition wrap (w x : Z) : Z := x mod 2 ^ w.

(** The two values [step] ever receives: [step = 1] and [step = -1]
    (the latter converted to the unsigned type of [step]). *)
Definition step_up : Z := 1.
Definition step_down (v : variant) : Z := wrap (time_bits v) (-1).

(** ** Machine state *)

Record state : Type := mkState {
  time : Z;                              (* volatile uintN_t time *)
  step : Z;                              (* volatile uintN_t step *)
  clock_running : bool;
  clock_ascending : bool;
  start_stop_button_was_pressed : bool;
  swap_mode_button_was_pressed : bool;
  reset_button_was_pressed : bool;
  TCNT : Z;                              (* TCNT1 / TCNT0 *)
  TCCRB : Z;                             (* TCCR1B / TCCR0B *)
  PORTB : Z;
  PORTD : Z;
  sreg_I : bool                          (* global interrupt enable, set by sei() *)
}.

Definition set_time (x : Z) (s : state) : state :=
  mkState x (step s) (clock_running s) (clock_ascending s)
    (start_stop_button_was_pressed s) (swap_mode_button_was_pressed s)
    (reset_button_was_pressed s) (TCNT s) (TCCRB s) (PORTB s) (PORTD s) (sreg_I s).

Definition set_step (x : Z) (s : state) : state :=
  mkState (time s) x (clock_running s) (clock_ascending s)
    (start_stop_button_was_pressed s) (swap_mode_button_was_pressed s)
    (reset_button_was_pressed s) (TCNT s) (TCCRB s) (PORTB s) (PORTD s) (sreg_I s).

Definition set_clock_running (b : bool) (s : state) : state :=
  mkState (time s) (step s) b (clock_ascending s)
    (start_stop_button_was_pressed s) (swap_mode_button_was_pressed s)
    (reset_button_was_pressed s) (TCNT s) (TCCRB s) (PORTB s) (PORTD s) (sreg_I s).

Definition set_clock_ascending (b : bool) (s : state) : state :=
  mkState (time s) (step s) (clock_running s) b
    (start_stop_button_was_pressed s) (swap_mode_button_was_pressed s)
    (reset_button_was_pressed s) (TCNT s) (TCCRB s) (PORTB s) (PORTD s) (sreg_I s).

Definition set_was_pressed (ss sm rs : bool) (s : state) : state :=
  mkState (time s) (step s) (clock_running s) (clock_ascending s)
    ss sm rs (TCNT s) (TCCRB s) (PORTB s) (PORTD s) (sreg_I s).

Definition set_TCNT (x : Z) (s : state) : state :=
  mkState (time s) (step s) (clock_running s) (clock_ascending s)
    (start_stop_button_was_pressed s) (swap_mode_button_was_pressed s)
    (reset_button_was_pressed s) x (TCCRB s) (PORTB s) (PORTD s) (sreg_I s).

Definition set_TCCRB (x : Z) (s : state) : state :=
  mkState (time s) (step s) (clock_running s) (clock_ascending s)
    (start_stop_button_was_pressed s) (swap_mode_button_was_pressed s)
    (reset_button_was_pressed s) (TCNT s) x (PORTB s) (PORTD s) (sreg_I s).

Definition set_PORTB (x : Z) (s : state) : state :=
  mkState (time s) (step s) (clock_running s) (clock_ascending s)
    (start_stop_button_was_pressed s) (swap_mode_button_was_pressed s)
    (reset_button_was_pressed s) (TCNT s) (TCCRB s) x (PORTD s) (sreg_I s).

Definition set_PORTD (x : Z) (s : state) : state :=
  mkState (time s) (step s) (clock_running s) (clock_ascending s)
    (start_stop_button_was_pressed s) (swap_mode_button_was_pressed s)
    (reset_button_was_pressed s) (TCNT s) (TCCRB s) (PORTB s) x (sreg_I s).

Definition set_sreg_I (b : bool) (s : state) : state :=
  mkState (time s) (step s) (clock_running s) (clock_ascending s)
    (start_stop_button_was_pressed s) (swap_mode_button_was_pressed s)
    (reset_button_was_pressed s) (TCNT s) (TCCRB s) (PORTB s) (PORTD s) b.

(** ** Timer tick handler: [ISR(TIMER1_COMPA_vect)] / [ISR(TIMER0_COMPA_vect)] *)

Definition TIMER_COMPA_vect (v : variant) (s : state) : state :=
  (* time += step; *)
  let s := set_time (wrap (time_bits v) (time s + step s)) s in
  (* if (time == 60) { time = 0; } *)
  let s := if time s =? LIMIT v then set_time 0 s else s in
  (* if (time == 255) { time = 59; } *)
  let s := if time s =? UNDERFLOW v then set_time (LAST v) s else s in
  s.

(** ** Pin-change handler: [ISR(PCINT1_vect)] *)

(** [(PINC & 1<<k) == 0]: the buttons are active low. *)
Definition is_pressed (pinc k : Z) : bool :=
  Z.land pinc (Z.shiftl 1 k) =? 0.

(** Body of the start/stop branch.  [TCCRnB] is an 8-bit register. *)
Definition start_stop_action (v : variant) (s : state) : state :=
  if clock_running s then
    (* TCCRnB &= ~mask; clock_running = false; *)
    let s := set_TCCRB (wrap 8 (Z.land (TCCRB s) (Z.lnot (cs_mask v)))) s in
    set_clock_running false s
  else
    (* TCCRnB |= mask; clock_running = true; *)
    let s := set_TCCRB (wrap 8 (Z.lor (TCCRB s) (cs_mask v))) s in
    set_clock_running true s.

(** Body of the swap-mode branch. *)
Definition swap_mode_action (v : variant) (s : state) : state :=
  if clock_ascending s then
    (* TCNTn = TIMER_TOP - TCNTn; step = -1; clock_ascending = false; *)
    let s := set_TCNT (wrap (tcnt_bits v) (TIMER_TOP v - TCNT s)) s in
    let s := set_step (wrap (time_bits v) (-1)) s in
    set_clock_ascending false s
  else
    (* TCNTn = TIMER_TOP - TCNTn; step = 1; clock_ascending = true; *)
    let s := set_TCNT (wrap (tcnt_bits v) (TIMER_TOP v - TCNT s)) s in
    let s := set_step (wrap (time_bits v) 1) s in
    set_clock_ascending true s.

(** Body of the reset branch: [TCNTn = 0; time = 0;]. *)
Definition reset_action (s : state) : state :=
  let s := set_TCNT 0 s in
  set_time 0 s.

(** The handler.  [pinc] is the level of port C while the handler runs
    (the three reads of [PINC] see the same levels). *)
Definition PCINT1_vect (v : variant) (pinc : Z) (s : state) : state :=
  let start_stop_button_is_pressed := is_pressed pinc 0 in
  let swap_mode_button_is_pressed := is_pressed pinc 1 in
  let reset_button_is_pressed := is_pressed pinc 2 in
  let s :=
    if start_stop_button_is_pressed && negb (start_stop_button_was_pressed s)
    then start_stop_action v s else s in
  let s :=
    if swap_mode_button_is_pressed && negb (swap_mode_button_was_pressed s)
    then swap_mode_action v s else s in
  let s :=
    if reset_button_is_pressed && negb (reset_button_was_pressed s)
    then reset_action s else s in
  set_was_pressed start_stop_button_is_pressed swap_mode_button_is_pressed
    reset_button_is_pressed s.

(** The press edges one invocation detects. *)
Definition start_stop_edge (pinc : Z) (s : state) : bool :=
  is_pressed pinc 0 && negb (start_stop_button_was_pressed s).
Definition swap_mode_edge (pinc : Z) (s : state) : bool :=
  is_pressed pinc 1 && negb (swap_mode_button_was_pressed s).
Definition reset_edge (pinc : Z) (s : state) : bool :=
  is_pressed pinc 2 && negb (reset_button_was_pressed s).

(** ** Start-up *)

(** The initialisers of the globals; the registers hold their reset value. *)
Definition globals_init : state :=
  mkState 0 1 true true false false false 0 0 0 0 false.

(** The register writes of [main] before its loop, for the registers of
    [state]: [PORTB = 0; PORTD = 0; TCCRnB = ...; TCNTn = 0; sei();]. *)
Definition main_setup (v : variant) (s : state) : state :=
  let s := set_PORTB 0 s in
  let s := set_PORTD 0 s in
  let s := set_TCCRB (TCCRB_config v) s in
  let s := set_TCNT 0 s in
  set_sreg_I true s.

Definition power_on (v : variant) : state := main_setup v globals_init.

(** ** Interrupts *)

Inductive interrupt : Type :=
| TimerCompare
| PinChange (pinc : Z).

Definition handle (v : variant) (i : interrupt) (s : state) : state :=
  match i with
  | TimerCompare => TIMER_COMPA_vect v s
  | PinChange pinc => PCINT1_vect v pinc s
  end.

(** Handlers run to completion, one after the other. *)
Definition run (v : variant) (irqs : list interrupt) (s : state) : state :=
  fold_left (fun s i => handle v i s) irqs s.

(** The counter values [time] holds before, between and after the
    handlers of [irqs]. *)
Fixpoint counter_values (v : variant) (irqs : list interrupt) (s : state)
  : list Z :=
  time s ::
  match irqs with
  | [] => []
  | i :: rest => counter_values v rest (handle v i s)
  end.

(** ** The timer peripheral

    The part of the microcontroller the source's comments rely on: in
    CTC mode the counter runs from 0 to [TIMER_TOP], is cleared there and
    raises the compare-match interrupt; with the clock-select bits
    [CS2:0] of [TCCRnB] all zero the timer has no clock and stands still.
    [timer_clock] is one period of the prescaled timer clock. *)

Definition clock_select (tccrb : Z) : Z := Z.land tccrb 0x07.

Definition timer_clock (v : variant) (s : state) : state :=
  if clock_select (TCCRB s) =? 0 then s
  else if TCNT s =? TIMER_TOP v then TIMER_COMPA_vect v (set_TCNT 0 s)
  else set_TCNT (wrap (tcnt_bits v) (TCNT s + 1)) s.

(** ** Display loop of [main] *)

(** [uint8_t digits[10]], written in the source as binary literals. *)
Definition digits : list Z :=
  [ 0x3F (* 0b00111111 *); 0x06 (* 0b00000110 *); 0x5B (* 0b01011011 *);
    0x4F (* 0b01001111 *); 0x66 (* 0b01100110 *); 0x6D (* 0b01101101 *);
    0x7D (* 0b01111101 *); 0x07 (* 0b00000111 *); 0x7F (* 0b01111111 *);
    0x67 (* 0b01100111 *) ].

(** [digits[i]]; an index outside the array has no defined value. *)
Definition digits_at (i : Z) : option Z :=
  if i <? 0 then None else nth_error digits (Z.to_nat i).

(** Interrupts that arrive while the foreground runs are served at once
    when the I flag is set. *)
Definition serve (v : variant) (irqs : list interrupt) (s : state) : state :=
  if sreg_I s then run v irqs s else s.

(** Byte [k] of a multi-byte variable. *)
Definition byte_of (k x : Z) : Z := (x / 2 ^ (8 * k)) mod 256.

(** The foreground read of [time] on the 8-bit core: one load per byte,
    low byte first.  [irqs] are the interrupts that arrive after the
    first load.  The source reads [time] as a plain expression, with no
    [cli()] before it. *)
Definition load_time (v : variant) (irqs : list interrupt) (s : state)
  : Z * state :=
  match v with
  | Seconds => (time s, serve v irqs s)
  | Millis =>
      let lo := byte_of 0 (time s) in
      let s := serve v irqs s in
      let hi := byte_of 1 (time s) in
      (lo + hi * 256, s)
  end.

(** One iteration of [while (true) { ... }]. *)
Definition main_loop_body (v : variant) (irqs : list interrupt) (s : state)
  : option state :=
  let (t, s) := load_time v irqs s in
  (* uint8_t current_time = time;  /  = time / 1000; *)
  let current_time :=
    match v with Seconds => wrap 8 t | Millis => wrap 8 (t / 1000) end in
  let time_digit_0 := wrap 8 (current_time mod 10) in
  let time_digit_1 := wrap 8 (current_time / 10) in
  match digits_at time_digit_0, digits_at time_digit_1 with
  | Some d0, Some d1 =>
      (* PORTB = digits[time_digit_0]; PORTD = digits[time_digit_1]; *)
      let s := set_PORTB d0 s in
      Some (set_PORTD d1 s)
  | _, _ => None
  end.

(** ** State predicates *)

Definition time_in_range (v : variant) (s : state) : Prop :=
  0 <= time s < LIMIT v.

(** [step] is one of its two values and [clock_ascending] mirrors it. *)
Definition direction_ok (v : variant) (s : state) : Prop :=
  (step s = step_up \/ step s = step_down v) /\
  (clock_ascending s = true <-> step s = step_up).

(** [TCCRnB] holds what [main] configured, with the start/stop bits
    cleared exactly while the clock is stopped. *)
Definition timer_ok (v : variant) (s : state) : Prop :=
  TCCRB s =
    if clock_running s then TCCRB_config v
    else Z.land (TCCRB_config v) (Z.lnot (cs_mask v)).

(** A value read by the foreground is torn when the counter never held it. *)
Definition torn (v : variant) (irqs : list interrupt) (s : state) (x : Z)
  : Prop :=
  ~ In x (counter_values v irqs s).

(** None of the three buttons is down. *)
Definition all_released (pinc : Z) : Prop :=
  is_pressed pinc 0 = false /\ is_pressed pinc 1 = false /\
  is_pressed pinc 2 = false.

(** ** Sample states *)

(** The state after start-up with the counter at [t], counting up or down. *)
Definition clock_at (v : variant) (t : Z) (up : bool) : state :=
  let s := set_time t (power_on v) in
  let s := set_step (if up then step_up else step_down v) s in
  set_clock_ascending up s.

(** The seconds clock at 10 s, counting up, the timer 3 ticks from TOP. *)
Definition near_top : state := set_TCNT 15621 (clock_at Seconds 10 true).

(** The milliseconds clock at 1234 ms, counting down, stopped, with a
    non-zero timer register. *)
Definition stopped_descending : state :=
  let s := set_TCNT 100 (clock_at Millis 1234 false) in
  let s := set_TCCRB 0 s in
  set_clock_running false s.

(** The milliseconds clock after 255 ticks from start-up. *)
Definition after_255_ticks : state :=
  run Millis (repeat TimerCompare 255) (power_on Millis).

(** * The other programs of the repository *)

(** ** ADC sampler: [ISR(ADC_vect)] filling a ring of samples *)

Module Sampler.

(** [#define SAMPLES_NUMBER 20] *)
Definition SAMPLES_NUMBER : Z := 20.

Record state : Type := mkState {
  samples : list Z;          (* volatile uint16_t samples[SAMPLES_NUMBER] *)
  current_sample : Z         (* volatile uint8_t current_sample *)
}.

(** [a[i] = x]; a store outside the array has no defined result. *)
Fixpoint store (a : list Z) (i : nat) (x : Z) : option (list Z) :=
  match a, i with
  | [], _ => None
  | _ :: t, O => Some (x :: t)
  | h :: t, S i' =>
      match store t i' x with
      | Some t' => Some (h :: t')
      | None => None
      end
  end.

(** [samples[SAMPLES_NUMBER] = { 0 }; current_sample = 0;] *)
Definition init : state :=
  mkState (repeat 0 (Z.to_nat SAMPLES_NUMBER)) 0.

(** The handler; [adc] is the value read from the 16-bit register [ADC]. *)
Definition ADC_vect (adc : Z) (s : state) : option state :=
  (* samples[current_sample] = ADC; *)
  if current_sample s <? 0 then None else
  match store (samples s) (Z.to_nat (current_sample s)) adc with
  | None => None
  | Some a =>
      (* current_sample += 1; *)
      let c := wrap 8 (current_sample s + 1) in
      (* if (current_sample == SAMPLES_NUMBER) { current_sample = 0; } *)
      let c := if c =? SAMPLES_NUMBER then 0 else c in
      Some (mkState a c)
  end.

(** One conversion after the other, each read value handed to the handler. *)
Fixpoint conversions (adcs : list Z) (s : state) : option state :=
  match adcs with
  | [] => Some s
  | adc :: rest =>
      match ADC_vect adc s with
      | Some s' => conversions rest s'
      | None => None
      end
  end.

(** The array and its index fit together. *)
Definition index_ok (s : state) : Prop :=
  length (samples s) = Z.to_nat SAMPLES_NUMBER /\
  0 <= current_sample s < SAMPLES_NUMBER.

End Sampler.

(** ** Keypad display: the highest pressed button of port D as a digit *)

Module Keypad.

(** [uint8_t digits[9]]: the patterns of the digits 0 to 8. *)
Definition digits : list Z :=
  [ 0x3F (* 0b00111111 *); 0x06 (* 0b00000110 *); 0x5B (* 0b01011011 *);
    0x4F (* 0b01001111 *); 0x66 (* 0b01100110 *); 0x6D (* 0b01101101 *);
    0x7D (* 0b01111101 *); 0x07 (* 0b00000111 *); 0x7F (* 0b01111111 *) ].

(** [uint8_t mask = 1<<i; (PIND & mask) == 0] *)
Definition button_down (pind i : Z) : bool :=
  let mask := wrap 8 (Z.shiftl 1 i) in
  Z.land pind mask =? 0.

(** Body of the [for] loop: [if (...) { pressed_digit = i+1; }]. *)
Definition scan_step (pind : Z) (pressed_digit i : Z) : Z :=
  if button_down pind i then wrap 8 (i + 1) else pressed_digit.

(** [pressed_digit = 0; for (uint8_t i = 0; i < 8; ++i) { ... }];
    [pind] is the level of port D during the scan. *)
Definition pressed_digit (pind : Z) : Z :=
  fold_left (scan_step pind) [0; 1; 2; 3; 4; 5; 6; 7] 0.

(** One iteration of [while (1)]: the value written to [PORTB], if the
    index is inside the table. *)
Definition main_loop_body (pind : Z) : option Z :=
  nth_error digits (Z.to_nat (pressed_digit pind)).

End Keypad.

(** ** Serial sampler: the last ADC value sent as four decimal digits *)

Module Serial.

Record state : Type := mkState {
  has_new_sample : bool;
  sample : Z;                (* volatile uint16_t sample *)
  should_transmit : bool
}.

(** The initialisers of the globals. *)
Definition init : state := mkState false 0 false.

(** [ISR(ADC_vect)]: [has_new_sample = true; sample = ADC;]. *)
Definition ADC_vect (adc : Z) (s : state) : state :=
  mkState true adc (should_transmit s).

(** [ISR(USART_RX_vect)]: [switch (UDR0)] with the cases ['0'] and ['1']. *)
Definition USART_RX_vect (udr0 : Z) (s : state) : state :=
  if udr0 =? 48 (* '0' *) then
    mkState (has_new_sample s) (sample s) false
  else if udr0 =? 49 (* '1' *) then
    mkState (has_new_sample s) (sample s) true
  else s.

(** Received bytes, one handler invocation each. *)
Definition receive (bytes : list Z) (s : state) : state :=
  fold_left (fun s b => USART_RX_vect b s) bytes s.

(** [uint8_t digits[10] = { '0', ..., '9' }] *)
Definition digits : list Z := [48; 49; 50; 51; 52; 53; 54; 55; 56; 57].

(** [a[i]] and [a[i] = x] with the index checked against the array. *)
Definition load (a : list Z) (i : Z) : option Z :=
  if i <? 0 then None else nth_error a (Z.to_nat i).

Definition store (a : list Z) (i x : Z) : option (list Z) :=
  if i <? 0 then None else Sampler.store a (Z.to_nat i) x.

(** Body of the first [for] loop:
    [chars[3-i] = digits[current_sample%10]; current_sample /= 10;]. *)
Definition digit_step (st : option (list Z * Z)) (i : Z)
  : option (list Z * Z) :=
  match st with
  | None => None
  | Some (chars, current_sample) =>
      match load digits (current_sample mod 10) with
      | None => None
      | Some d =>
          match store chars (3 - i) d with
          | None => None
          | Some chars => Some (chars, current_sample / 10)
          end
      end
  end.

(** [uint8_t chars[4]; for (uint8_t i = 0; i < 4; ++i) { ... }]; the
    array starts with arbitrary contents [chars0]. *)
Definition to_chars (chars0 : list Z) (current_sample : Z)
  : option (list Z) :=
  match fold_left digit_step [0; 1; 2; 3] (Some (chars0, current_sample)) with
  | Some (chars, _) => Some chars
  | None => None
  end.

(** [(UCSR0A & (1<<5)) != 0]: the transmit buffer is empty. *)
Definition buffer_empty (ucsr0a : Z) : bool :=
  negb (Z.land ucsr0a (Z.shiftl 1 5) =? 0).

(** [USART_transmit]: [while ((UCSR0A & (1<<5)) == 0) { }  UDR0 = data;].
    [polls] are the values the successive reads of [UCSR0A] return; the
    result is the reads left over and the byte written to [UDR0], or
    nothing when the reads run out with the loop still waiting. *)
Fixpoint USART_transmit (polls : list Z) (data : Z) : option (list Z * Z) :=
  match polls with
  | [] => None
  | ucsr0a :: rest =>
      if buffer_empty ucsr0a then Some (rest, wrap 8 data)
      else USART_transmit rest data
  end.

(** Successive calls of [USART_transmit]; [sent] collects the bytes
    written to [UDR0], oldest first. *)
Fixpoint transmit_all (polls : list Z) (data : list Z) (sent : list Z)
  : option (list Z * list Z) :=
  match data with
  | [] => Some (polls, sent)
  | d :: rest =>
      match USART_transmit polls d with
      | None => None
      | Some (polls, b) => transmit_all polls rest (sent ++ [b])
      end
  end.

(** One iteration of [while (true)], with no interrupt served inside it:
    the reads of [UCSR0A] left over, the bytes written to [UDR0] and the
    globals afterwards. *)
Definition main_loop_body (chars0 : list Z) (polls : list Z) (s : state)
  : option (list Z * list Z * state) :=
  (* if (!should_transmit) { continue; } *)
  if negb (should_transmit s) then Some (polls, [], s) else
  (* if (has_new_sample) { *)
  if has_new_sample s then
    (* has_new_sample = false; uint16_t current_sample = sample; *)
    let s := mkState false (sample s) (should_transmit s) in
    let current_sample := sample s in
    match to_chars chars0 current_sample with
    | None => None
    | Some chars =>
        (* for (i < 4) USART_transmit(chars[i]);
           USART_transmit('\r'); USART_transmit('\n'); *)
        match load chars 0, load chars 1, load chars 2, load chars 3 with
        | Some c0, Some c1, Some c2, Some c3 =>
            match transmit_all polls [c0; c1; c2; c3; 13; 10] [] with
            | None => None
            | Some (polls, sent) => Some (polls, sent, s)
            end
        | _, _, _, _ => None
        end
    end
  else Some (polls, [], s).

(** The number a receiver reads from a line of ASCII decimal digits. *)
Definition decimal_value (chars : list Z) : Z :=
  fold_left (fun acc c => 10 * acc + (c - 48)) chars 0.

End Serial.

(** * Properties *)

(** ** Arithmetic of the unsigned types *)

Lemma wrap_small w x : 0 <= x < 2 ^ w -> wrap w x = x.
Proof. intros H; unfold wrap; apply Z.mod_small; exact H. Qed.

Lemma step_down_value v : step_down v = UNDERFLOW v.
Proof. destruct v; reflexivity. Qed.

Lemma step_up_neq_down v : step_up <> step_down v.
Proof. destruct v; discriminate. Qed.

(** ** The tick handler on the counter *)

Ltac case_if :=
  match goal with
  | |- context [if ?c then _ else _] => destruct c eqn:?
  end.

Lemma tick_only_time v s :
  TIMER_COMPA_vect v s = set_time (time (TIMER_COMPA_vect v s)) s.
Proof.
  unfold TIMER_COMPA_vect; cbn.
  repeat case_if; reflexivity.
Qed.

Lemma tick_up v s :
  time_in_range v s -> step s = step_up ->
  time (TIMER_COMPA_vect v s) = (time s + 1) mod LIMIT v.
Proof.
  unfold time_in_range, TIMER_COMPA_vect, step_up, wrap.
  intros Hr ->; destruct v; cbn in *.
  - rewrite (Z.mod_small (time s + 1) 256) by lia.
    destruct (Z.eqb_spec (time s + 1) 60) as [E|E]; cbn.
    + rewrite E; reflexivity.
    + destruct (Z.eqb_spec (time s + 1) 255); [lia|]; cbn.
      rewrite Z.mod_small; lia.
  - rewrite (Z.mod_small (time s + 1) 65536) by lia.
    destruct (Z.eqb_spec (time s + 1) 60000) as [E|E]; cbn.
    + rewrite E; reflexivity.
    + destruct (Z.eqb_spec (time s + 1) 65535); [lia|]; cbn.
      rewrite Z.mod_small; lia.
Qed.

(** Descending from 0 passes through the all-ones value of the type,
    which the second test of the handler maps to [LIMIT - 1]. *)
Lemma tick_down v s :
  time_in_range v s -> step s = step_down v ->
  time (TIMER_COMPA_vect v s) = (time s - 1 + LIMIT v) mod LIMIT v.
Proof.
  unfold time_in_range, TIMER_COMPA_vect; rewrite step_down_value.
  intros Hr ->; destruct v; cbn -[Z.modulo] in *; unfold wrap.
  - destruct (Z.eq_dec (time s) 0) as [Z0|NZ].
    + rewrite Z0; reflexivity.
    + replace ((time s + 255) mod 2 ^ 8) with (time s - 1)
        by (change (2 ^ 8) with 256;
            apply (Z.mod_unique _ _ 1); lia).
      destruct (Z.eqb_spec (time s - 1) 60); [lia|]; cbn -[Z.modulo].
      destruct (Z.eqb_spec (time s - 1) 255); [lia|]; cbn -[Z.modulo].
      apply (Z.mod_unique _ _ 1); lia.
  - destruct (Z.eq_dec (time s) 0) as [Z0|NZ].
    + rewrite Z0; reflexivity.
    + replace ((time s + 65535) mod 2 ^ 16) with (time s - 1)
        by (change (2 ^ 16) with 65536;
            apply (Z.mod_unique _ _ 1); lia).
      destruct (Z.eqb_spec (time s - 1) 60000); [lia|]; cbn -[Z.modulo].
      destruct (Z.eqb_spec (time s - 1) 65535); [lia|]; cbn -[Z.modulo].
      apply (Z.mod_unique _ _ 1); lia.
Qed.

(** C1. For every [time] in [[0, LIMIT)], one invocation of the timer
    tick handler yields [(time + 1) mod LIMIT] when [step] is +1 and
    [(time - 1 + LIMIT) mod LIMIT] when [step] is -1, in the seconds
    variant (LIMIT 60) and in the milliseconds variant (LIMIT 60000). *)
Theorem tick_modular v s :
  time_in_range v s ->
  (step s = step_up ->
   time (TIMER_COMPA_vect v s) = (time s + 1) mod LIMIT v) /\
  (step s = step_down v ->
   time (TIMER_COMPA_vect v s) = (time s - 1 + LIMIT v) mod LIMIT v).
Proof.
  intros Hr; split; intros Hs.
  - apply tick_up; assumption.
  - apply tick_down; assumption.
Qed.

Lemma tick_modular_witness :
  time (TIMER_COMPA_vect Seconds (clock_at Seconds 59 true)) = 0 /\
  time (TIMER_COMPA_vect Seconds (clock_at Seconds 0 false)) = 59.
Proof.
  split.
  - refine (proj1 (tick_modular Seconds (clock_at Seconds 59 true) _) _).
    + unfold time_in_range; cbn; lia.
    + reflexivity.
  - refine (proj2 (tick_modular Seconds (clock_at Seconds 0 false) _) _).
    + unfold time_in_range; cbn; lia.
    + reflexivity.
Defined.

(** ** The pin-change handler, field by field *)

(** The branches of the handler do not write the snapshots, so the three
    edge tests can all be evaluated on the state at entry. *)
Lemma PCINT1_vect_edges v pinc s :
  PCINT1_vect v pinc s =
  set_was_pressed (is_pressed pinc 0) (is_pressed pinc 1) (is_pressed pinc 2)
    (let s1 := if start_stop_edge pinc s then start_stop_action v s else s in
     let s2 := if swap_mode_edge pinc s then swap_mode_action v s1 else s1 in
     if reset_edge pinc s then reset_action s2 else s2).
Proof.
  destruct s as [t st rn asc ssw smw rsw tcnt tccrb pb pd i].
  unfold PCINT1_vect, start_stop_edge, swap_mode_edge, reset_edge,
    start_stop_action, swap_mode_action, reset_action.
  cbn [clock_running clock_ascending start_stop_button_was_pressed
       swap_mode_button_was_pressed reset_button_was_pressed].
  destruct (is_pressed pinc 0 && negb ssw), rn; cbn -[wrap];
    destruct (is_pressed pinc 1 && negb smw), asc; cbn -[wrap];
    destruct (is_pressed pinc 2 && negb rsw); reflexivity.
Qed.

(** Case analysis on the detected edges and on the two mode flags. *)
Ltac handler_cases v pinc s :=
  rewrite ?(PCINT1_vect_edges v pinc s);
  destruct (start_stop_edge pinc s), (swap_mode_edge pinc s),
    (reset_edge pinc s);
  destruct s as [? ? rn asc ? ? ? ? ? ? ? ?]; destruct rn, asc;
  cbn -[wrap] in *.

Lemma pcint_snapshots v pinc s :
  let s' := PCINT1_vect v pinc s in
  start_stop_button_was_pressed s' = is_pressed pinc 0 /\
  swap_mode_button_was_pressed s' = is_pressed pinc 1 /\
  reset_button_was_pressed s' = is_pressed pinc 2.
Proof. cbv zeta; unfold PCINT1_vect; cbn; auto. Qed.

Lemma pcint_time v pinc s :
  time (PCINT1_vect v pinc s) = if reset_edge pinc s then 0 else time s.
Proof. handler_cases v pinc s; reflexivity. Qed.

Lemma pcint_TCNT v pinc s :
  TCNT (PCINT1_vect v pinc s) =
    if reset_edge pinc s then 0
    else if swap_mode_edge pinc s
         then wrap (tcnt_bits v) (TIMER_TOP v - TCNT s)
         else TCNT s.
Proof. handler_cases v pinc s; reflexivity. Qed.

Lemma pcint_running v pinc s :
  clock_running (PCINT1_vect v pinc s) =
    if start_stop_edge pinc s then negb (clock_running s)
    else clock_running s.
Proof. handler_cases v pinc s; auto. Qed.

Lemma pcint_TCCRB v pinc s :
  TCCRB (PCINT1_vect v pinc s) =
    if start_stop_edge pinc s then
      if clock_running s
      then wrap 8 (Z.land (TCCRB s) (Z.lnot (cs_mask v)))
      else wrap 8 (Z.lor (TCCRB s) (cs_mask v))
    else TCCRB s.
Proof. handler_cases v pinc s; reflexivity. Qed.

Lemma pcint_step v pinc s :
  step (PCINT1_vect v pinc s) =
    if swap_mode_edge pinc s then
      if clock_ascending s then step_down v else step_up
    else step s.
Proof.
  handler_cases v pinc s; try reflexivity; destruct v; reflexivity.
Qed.

Lemma pcint_ascending v pinc s :
  clock_ascending (PCINT1_vect v pinc s) =
    if swap_mode_edge pinc s then negb (clock_ascending s)
    else clock_ascending s.
Proof. handler_cases v pinc s; reflexivity. Qed.

Lemma pcint_direction v pinc s :
  direction_ok v s -> direction_ok v (PCINT1_vect v pinc s).
Proof.
  unfold direction_ok; intros H.
  rewrite pcint_step, pcint_ascending.
  destruct (swap_mode_edge pinc s); [destruct (clock_ascending s)|]; auto.
  - pose proof (step_up_neq_down v).
    split; [auto | split; cbn; congruence].
  - split; [auto | split; reflexivity].
Qed.

Lemma tick_direction v s :
  direction_ok v s -> direction_ok v (TIMER_COMPA_vect v s).
Proof. rewrite tick_only_time; exact (fun H => H). Qed.

(** ** Range of the counter *)

Lemma LIMIT_pos v : 0 < LIMIT v.
Proof. destruct v; reflexivity. Qed.

Lemma tick_in_range v s :
  time_in_range v s -> step s = step_up \/ step s = step_down v ->
  time_in_range v (TIMER_COMPA_vect v s).
Proof.
  intros Hr [Hs|Hs]; unfold time_in_range.
  - rewrite (tick_up v s Hr Hs). apply Z.mod_pos_bound, LIMIT_pos.
  - rewrite (tick_down v s Hr Hs). apply Z.mod_pos_bound, LIMIT_pos.
Qed.

Lemma pcint_in_range v pinc s :
  time_in_range v s -> time_in_range v (PCINT1_vect v pinc s).
Proof.
  unfold time_in_range; rewrite pcint_time.
  destruct (reset_edge pinc s); [pose proof (LIMIT_pos v); lia | trivial].
Qed.

Lemma power_on_in_range v : time_in_range v (power_on v).
Proof. unfold time_in_range; destruct v; cbn; lia. Qed.

Lemma power_on_direction v : direction_ok v (power_on v).
Proof.
  unfold direction_ok; cbn.
  split; [left; reflexivity | split; reflexivity].
Qed.

(** Both invariants together are stable under any sequence of handlers. *)
Lemma run_invariant v irqs : forall s,
  time_in_range v s -> direction_ok v s ->
  time_in_range v (run v irqs s) /\ direction_ok v (run v irqs s).
Proof.
  induction irqs as [|i irqs IH]; intros s Hr Hd; [split; assumption|].
  cbn [run fold_left]; apply IH; destruct i; cbn [handle].
  - apply tick_in_range; [assumption | apply Hd].
  - apply pcint_in_range; assumption.
  - apply tick_direction; assumption.
  - apply pcint_direction; assumption.
Qed.

(** C2. The counter [time] always lies in [[0, LIMIT)]: it starts at 0,
    and the tick handler (with [step] +1 or -1), each of the three button
    actions and the pin-change handler as a whole map a state with [time]
    in range to a state with [time] in range; hence [time] is in range
    after every sequence of handler invocations from start-up. *)
Theorem time_always_in_range v :
  time (power_on v) = 0 /\
  (forall s, time_in_range v s ->
     step s = step_up \/ step s = step_down v ->
     time_in_range v (TIMER_COMPA_vect v s)) /\
  (forall s, time_in_range v s ->
     time_in_range v (start_stop_action v s) /\
     time_in_range v (swap_mode_action v s) /\
     time_in_range v (reset_action s)) /\
  (forall s pinc, time_in_range v s ->
     time_in_range v (PCINT1_vect v pinc s)) /\
  (forall irqs, time_in_range v (run v irqs (power_on v))).
Proof.
  split; [reflexivity|].
  split; [exact (tick_in_range v)|].
  split; [|split].
  - intros s Hr; unfold time_in_range in *.
    unfold start_stop_action, swap_mode_action, reset_action.
    destruct (clock_running s), (clock_ascending s); cbn;
      pose proof (LIMIT_pos v); repeat split; lia.
  - intros s pinc; apply pcint_in_range.
  - intros irqs.
    apply run_invariant; [apply power_on_in_range | apply power_on_direction].
Qed.

Lemma time_always_in_range_witness :
  time_in_range Seconds (TIMER_COMPA_vect Seconds (clock_at Seconds 59 true)) /\
  time_in_range Millis (TIMER_COMPA_vect Millis (clock_at Millis 0 false)) /\
  time_in_range Seconds (PCINT1_vect Seconds 0 (clock_at Seconds 59 true)).
Proof.
  split; [|split].
  - apply (proj1 (proj2 (time_always_in_range Seconds))).
    + unfold time_in_range; cbn; lia.
    + left; reflexivity.
  - apply (proj1 (proj2 (time_always_in_range Millis))).
    + unfold time_in_range; cbn; lia.
    + right; reflexivity.
  - apply (proj1 (proj2 (proj2 (proj2 (time_always_in_range Seconds))))).
    unfold time_in_range; cbn; lia.
Defined.

(** C7. [step] is always +1 or -1 and [clock_ascending] is true exactly
    when [step] is +1: the relation holds at start-up, is preserved by
    every invocation of the tick handler and of the pin-change handler,
    and so holds after every sequence of handler invocations. *)
Theorem direction_invariant v :
  direction_ok v (power_on v) /\
  (forall s, direction_ok v s -> direction_ok v (TIMER_COMPA_vect v s)) /\
  (forall s pinc, direction_ok v s -> direction_ok v (PCINT1_vect v pinc s)) /\
  (forall irqs, direction_ok v (run v irqs (power_on v))).
Proof.
  split; [apply power_on_direction|].
  split; [exact (tick_direction v)|].
  split; [intros s pinc; apply pcint_direction|].
  intros irqs.
  apply run_invariant; [apply power_on_in_range | apply power_on_direction].
Qed.

Lemma direction_invariant_witness :
  direction_ok Seconds (TIMER_COMPA_vect Seconds (clock_at Seconds 7 true)) /\
  direction_ok Millis (PCINT1_vect Millis 5 (clock_at Millis 7 false)).
Proof.
  split.
  - apply (proj1 (proj2 (direction_invariant Seconds))).
    unfold direction_ok; cbn.
    split; [left; reflexivity | split; reflexivity].
  - apply (proj1 (proj2 (proj2 (direction_invariant Millis)))).
    unfold direction_ok; cbn.
    split; [right; reflexivity | split; discriminate].
Defined.

(** ** Edge detection *)

Lemma set_was_pressed_same s :
  set_was_pressed (start_stop_button_was_pressed s)
    (swap_mode_button_was_pressed s) (reset_button_was_pressed s) s = s.
Proof. destruct s; reflexivity. Qed.

(** An invocation that sees the levels already recorded in the snapshots
    changes nothing. *)
Lemma pcint_no_change v pinc s :
  is_pressed pinc 0 = start_stop_button_was_pressed s ->
  is_pressed pinc 1 = swap_mode_button_was_pressed s ->
  is_pressed pinc 2 = reset_button_was_pressed s ->
  PCINT1_vect v pinc s = s.
Proof.
  intros H0 H1 H2; rewrite PCINT1_vect_edges.
  unfold start_stop_edge, swap_mode_edge, reset_edge.
  rewrite H0, H1, H2, !andb_negb_r; cbv zeta.
  apply set_was_pressed_same.
Qed.

Lemma pcint_same_levels v p q s :
  is_pressed q 0 = is_pressed p 0 ->
  is_pressed q 1 = is_pressed p 1 ->
  is_pressed q 2 = is_pressed p 2 ->
  PCINT1_vect v q (PCINT1_vect v p s) = PCINT1_vect v p s.
Proof.
  intros H0 H1 H2.
  destruct (pcint_snapshots v p s) as (S0 & S1 & S2).
  apply pcint_no_change; congruence.
Qed.

(** C3. Holding a button pressed across several invocations of the
    pin-change handler triggers its action at most once: every
    invocation ends with the snapshots equal to the levels it read, so a
    second consecutive invocation with the same pin levels leaves the
    whole state (clock variables, timer registers, snapshots) unchanged,
    and so does any further number of invocations. *)
Theorem held_button_acts_once v pinc s :
  (start_stop_button_was_pressed (PCINT1_vect v pinc s) = is_pressed pinc 0 /\
   swap_mode_button_was_pressed (PCINT1_vect v pinc s) = is_pressed pinc 1 /\
   reset_button_was_pressed (PCINT1_vect v pinc s) = is_pressed pinc 2) /\
  PCINT1_vect v pinc (PCINT1_vect v pinc s) = PCINT1_vect v pinc s /\
  forall n : nat,
    Nat.iter (S n) (PCINT1_vect v pinc) s = PCINT1_vect v pinc s.
Proof.
  assert (H : PCINT1_vect v pinc (PCINT1_vect v pinc s) = PCINT1_vect v pinc s)
    by (apply pcint_same_levels; reflexivity).
  split; [exact (pcint_snapshots v pinc s)|].
  split; [exact H|].
  induction n as [|n IH]; [reflexivity|].
  rewrite Nat.iter_succ, IH; exact H.
Qed.

(** ** Reversal of the counting direction *)

Lemma TIMER_TOP_fits v : 0 <= TIMER_TOP v < 2 ^ tcnt_bits v.
Proof. destruct v; cbn; lia. Qed.

Lemma swap_TCNT v s :
  TCNT (swap_mode_action v s) = wrap (tcnt_bits v) (TIMER_TOP v - TCNT s).
Proof. unfold swap_mode_action; destruct (clock_ascending s); reflexivity. Qed.

Lemma swap_step v s :
  step (swap_mode_action v s) =
    if clock_ascending s then step_down v else step_up.
Proof.
  unfold swap_mode_action; destruct (clock_ascending s), v; reflexivity.
Qed.

Lemma swap_ascending v s :
  clock_ascending (swap_mode_action v s) = negb (clock_ascending s).
Proof. unfold swap_mode_action; destruct (clock_ascending s); reflexivity. Qed.

Lemma remap_twice v x :
  0 <= x <= TIMER_TOP v ->
  wrap (tcnt_bits v) (TIMER_TOP v - x) = TIMER_TOP v - x /\
  wrap (tcnt_bits v)
    (TIMER_TOP v - wrap (tcnt_bits v) (TIMER_TOP v - x)) = x.
Proof.
  intros Hx; pose proof (TIMER_TOP_fits v).
  rewrite !wrap_small; lia.
Qed.

Lemma direction_step v s :
  direction_ok v s ->
  step s = if clock_ascending s then step_up else step_down v.
Proof.
  intros [[H|H] [A B]]; destruct (clock_ascending s); auto;
    specialize (B H); discriminate.
Qed.

(** C4. For every hardware counter value in [[0, TOP]] and either
    direction, one swap remaps the counter register to [TOP - current];
    two swaps in succession restore the counter register, [step] and
    [clock_ascending].  The same holds for the handler itself on a swap
    press, a release and a second swap press, the reset button staying
    released. *)
Theorem swap_twice_restores v s :
  0 <= TCNT s <= TIMER_TOP v -> direction_ok v s ->
  TCNT (swap_mode_action v s) = TIMER_TOP v - TCNT s /\
  (let s2 := swap_mode_action v (swap_mode_action v s) in
   TCNT s2 = TCNT s /\ step s2 = step s /\
   clock_ascending s2 = clock_ascending s) /\
  (forall p1 p2 p3,
     swap_mode_edge p1 s = true ->
     is_pressed p2 1 = false -> is_pressed p3 1 = true ->
     is_pressed p1 2 = false -> is_pressed p2 2 = false ->
     is_pressed p3 2 = false ->
     let s1 := PCINT1_vect v p1 s in
     let s3 := PCINT1_vect v p3 (PCINT1_vect v p2 s1) in
     TCNT s1 = TIMER_TOP v - TCNT s /\
     TCNT s3 = TCNT s /\ step s3 = step s /\
     clock_ascending s3 = clock_ascending s).
Proof.
  intros Hx Hd.
  destruct (remap_twice v (TCNT s) Hx) as [R1 R2].
  pose proof (direction_step v s Hd) as Hs.
  split; [rewrite swap_TCNT; exact R1|].
  split.
  - cbv zeta; rewrite !swap_TCNT, !swap_step, !swap_ascending, Hs.
    split; [exact R2|].
    destruct (clock_ascending s); split; reflexivity.
  - intros p1 p2 p3 E1 L2 L3 N1 N2 N3; cbv zeta.
    assert (R1' : reset_edge p1 s = false)
      by (unfold reset_edge; rewrite N1; reflexivity).
    pose proof (pcint_TCNT v p1 s) as T1.
    pose proof (pcint_step v p1 s) as S1.
    pose proof (pcint_ascending v p1 s) as A1.
    rewrite R1', ?E1 in T1; rewrite E1 in S1, A1.
    set (s1 := PCINT1_vect v p1 s) in *.
    assert (E2 : swap_mode_edge p2 s1 = false)
      by (unfold swap_mode_edge; rewrite L2; reflexivity).
    assert (R2' : reset_edge p2 s1 = false)
      by (unfold reset_edge; rewrite N2; reflexivity).
    pose proof (pcint_TCNT v p2 s1) as T2.
    pose proof (pcint_step v p2 s1) as S2.
    pose proof (pcint_ascending v p2 s1) as A2.
    destruct (pcint_snapshots v p2 s1) as (_ & W2 & _).
    rewrite R2', ?E2 in T2; rewrite E2 in S2, A2.
    set (s2 := PCINT1_vect v p2 s1) in *.
    assert (E3 : swap_mode_edge p3 s2 = true)
      by (unfold swap_mode_edge; rewrite L3, W2, L2; reflexivity).
    assert (R3' : reset_edge p3 s2 = false)
      by (unfold reset_edge; rewrite N3; reflexivity).
    rewrite pcint_TCNT, pcint_step, pcint_ascending, R3', E3.
    rewrite A2, A1, T2, T1, Hs.
    split; [exact R1|]. split; [exact R2|].
    destruct (clock_ascending s); split; reflexivity.
Qed.

Lemma swap_twice_restores_witness :
  TCNT (swap_mode_action Seconds near_top) = 3 /\
  TCNT (PCINT1_vect Seconds 5 near_top) = 3 /\
  TCNT (PCINT1_vect Seconds 5
          (PCINT1_vect Seconds 7 (PCINT1_vect Seconds 5 near_top))) = 15621.
Proof.
  assert (Hx : 0 <= TCNT near_top <= TIMER_TOP Seconds) by (cbn; lia).
  assert (Hd : direction_ok Seconds near_top)
    by (unfold direction_ok; cbn;
        split; [left; reflexivity | split; reflexivity]).
  destruct (swap_twice_restores Seconds near_top Hx Hd) as (A & _ & C).
  split; [exact A|].
  destruct (C 5 7 5 eq_refl eq_refl eq_refl eq_refl eq_refl eq_refl)
    as (C1 & C3 & _).
  split; [exact C1 | exact C3].
Defined.

(** ** Reset *)

(** C6. Whatever the prior state ([clock_running], [clock_ascending],
    [step], [time], counter register, other buttons), a detected press
    edge of the reset button leaves both the counter register and [time]
    at 0. *)
Theorem reset_zeroes v pinc s :
  is_pressed pinc 2 = true -> reset_button_was_pressed s = false ->
  time (PCINT1_vect v pinc s) = 0 /\ TCNT (PCINT1_vect v pinc s) = 0.
Proof.
  intros Hp Hw.
  rewrite pcint_time, pcint_TCNT.
  unfold reset_edge; rewrite Hp, Hw; split; reflexivity.
Qed.

Lemma reset_zeroes_witness :
  time (PCINT1_vect Millis 3 stopped_descending) = 0 /\
  TCNT (PCINT1_vect Millis 3 stopped_descending) = 0.
Proof. apply (reset_zeroes Millis 3 stopped_descending); reflexivity. Defined.

(** ** Frame of the swap action *)

(** C10. The swap-direction action never writes [time]: it changes only
    the counter register, [step] and [clock_ascending]; and an invocation
    of the handler that detects a swap press edge (and no reset press edge)
    returns with [time] unchanged. *)
Theorem swap_keeps_time v s :
  time (swap_mode_action v s) = time s /\
  swap_mode_action v s =
    set_clock_ascending (clock_ascending (swap_mode_action v s))
      (set_step (step (swap_mode_action v s))
         (set_TCNT (TCNT (swap_mode_action v s)) s)) /\
  (forall pinc,
     swap_mode_edge pinc s = true -> reset_edge pinc s = false ->
     time (PCINT1_vect v pinc s) = time s).
Proof.
  split; [|split].
  - unfold swap_mode_action; destruct (clock_ascending s); reflexivity.
  - unfold swap_mode_action; destruct (clock_ascending s); reflexivity.
  - intros pinc _ Hr; rewrite pcint_time, Hr; reflexivity.
Qed.

Lemma swap_keeps_time_witness :
  time (PCINT1_vect Seconds 5 near_top) = 10.
Proof.
  exact (proj2 (proj2 (swap_keeps_time Seconds near_top)) 5 eq_refl eq_refl).
Defined.

(** ** Start and stop *)

Lemma wrap8_land x : wrap 8 x = Z.land x (Z.ones 8).
Proof. unfold wrap; rewrite Z.land_ones by lia; reflexivity. Qed.

Lemma mask_cleared x m : Z.land (wrap 8 (Z.land x (Z.lnot m))) m = 0.
Proof.
  rewrite wrap8_land; apply Z.bits_inj'; intros n Hn.
  rewrite !Z.land_spec, Z.lnot_spec, Z.bits_0 by exact Hn.
  destruct (Z.testbit x n), (Z.testbit m n), (Z.testbit (Z.ones 8) n);
    reflexivity.
Qed.

Lemma mask_set v x : Z.land (wrap 8 (Z.lor x (cs_mask v))) (cs_mask v) = cs_mask v.
Proof.
  rewrite wrap8_land; apply Z.bits_inj'; intros n Hn.
  rewrite !Z.land_spec, Z.lor_spec.
  destruct (Z.ltb_spec n 8) as [Lt|Ge].
  - rewrite Z.ones_spec_low by lia.
    destruct (Z.testbit x n), (Z.testbit (cs_mask v) n); reflexivity.
  - rewrite (Z.bits_above_log2 (cs_mask v) n) by (destruct v; cbn; lia).
    apply andb_false_r.
Qed.

Lemma timer_clock_stopped v s :
  clock_select (TCCRB s) = 0 ->
  forall n : nat, Nat.iter n (timer_clock v) s = s.
Proof.
  intros H; induction n as [|n IH]; [reflexivity|].
  rewrite Nat.iter_succ, IH.
  unfold timer_clock; rewrite H; reflexivity.
Qed.

Lemma stopped_config v :
  wrap 8 (Z.land (TCCRB_config v) (Z.lnot (cs_mask v))) =
    Z.land (TCCRB_config v) (Z.lnot (cs_mask v)) /\
  clock_select (Z.land (TCCRB_config v) (Z.lnot (cs_mask v))) = 0 /\
  wrap 8 (Z.lor (Z.land (TCCRB_config v) (Z.lnot (cs_mask v))) (cs_mask v)) =
    TCCRB_config v.
Proof. destruct v; repeat split; reflexivity. Qed.

Lemma power_on_timer_ok v : timer_ok v (power_on v).
Proof. reflexivity. Qed.

Lemma handle_timer_ok v i s : timer_ok v s -> timer_ok v (handle v i s).
Proof.
  destruct (stopped_config v) as (C1 & _ & C3).
  destruct i as [|pinc]; cbn [handle].
  - rewrite tick_only_time; exact (fun H => H).
  - unfold timer_ok; intros H.
    rewrite pcint_TCCRB, pcint_running.
    destruct (start_stop_edge pinc s); [|exact H].
    destruct (clock_running s); rewrite H; cbn [negb]; assumption.
Qed.

Lemma timer_clock_timer_ok v s : timer_ok v s -> timer_ok v (timer_clock v s).
Proof.
  unfold timer_clock; intros H.
  destruct (clock_select (TCCRB s) =? 0); [exact H|].
  destruct (TCNT s =? TIMER_TOP v); [|exact H].
  rewrite tick_only_time; exact H.
Qed.

(** C5. A detected press edge of the start/stop button while the clock
    runs sets [clock_running] to false and clears the start/stop bits of
    [TCCRnB]; [time] is not altered (unless the same invocation also
    detects a reset press), and, the timer being configured as [main]
    left it, the stopped timer raises no tick however long it is
    clocked, so [time] stays.  A press edge while the clock is stopped
    sets those bits again, giving back the configured [TCCRnB], and sets
    [clock_running] to true. *)
Theorem start_stop_toggles v pinc s :
  is_pressed pinc 0 = true -> start_stop_button_was_pressed s = false ->
  let s' := PCINT1_vect v pinc s in
  (clock_running s = true ->
     clock_running s' = false /\
     TCCRB s' = wrap 8 (Z.land (TCCRB s) (Z.lnot (cs_mask v))) /\
     Z.land (TCCRB s') (cs_mask v) = 0 /\
     (reset_edge pinc s = false -> time s' = time s) /\
     (timer_ok v s ->
      forall n : nat,
        Nat.iter n (timer_clock v) s' = s' /\
        time (Nat.iter n (timer_clock v) s') = time s')) /\
  (clock_running s = false ->
     clock_running s' = true /\
     TCCRB s' = wrap 8 (Z.lor (TCCRB s) (cs_mask v)) /\
     Z.land (TCCRB s') (cs_mask v) = cs_mask v /\
     (timer_ok v s -> TCCRB s' = TCCRB_config v)).
Proof.
  intros Hp Hw; cbv zeta.
  assert (E : start_stop_edge pinc s = true)
    by (unfold start_stop_edge; rewrite Hp, Hw; reflexivity).
  pose proof (pcint_running v pinc s) as R.
  pose proof (pcint_TCCRB v pinc s) as T.
  rewrite E in R, T.
  destruct (stopped_config v) as (C1 & C2 & C3).
  split; intros Hr; rewrite Hr in R, T; cbn [negb] in R.
  - split; [exact R|]. split; [exact T|].
    split; [rewrite T; apply mask_cleared|].
    split.
    + intros Hn; rewrite pcint_time, Hn; reflexivity.
    + intros Hok n.
      assert (F : Nat.iter n (timer_clock v) (PCINT1_vect v pinc s) =
                  PCINT1_vect v pinc s).
      { apply timer_clock_stopped.
        unfold timer_ok in Hok; rewrite Hr in Hok.
        rewrite T, Hok, C1; exact C2. }
      split; [exact F | rewrite F; reflexivity].
  - split; [exact R|]. split; [exact T|].
    split; [rewrite T; apply mask_set|].
    intros Hok; unfold timer_ok in Hok; rewrite Hr in Hok.
    rewrite T, Hok; exact C3.
Qed.

Lemma start_stop_toggles_witness :
  clock_running (PCINT1_vect Seconds 6 near_top) = false /\
  TCCRB (PCINT1_vect Seconds 6 near_top) = 8 /\
  time (Nat.iter 1000 (timer_clock Seconds) (PCINT1_vect Seconds 6 near_top))
    = 10 /\
  clock_running (PCINT1_vect Millis 6 stopped_descending) = true /\
  TCCRB (PCINT1_vect Millis 6 stopped_descending) = 2.
Proof.
  destruct (start_stop_toggles Seconds 6 near_top eq_refl eq_refl)
    as [Stop _].
  destruct (Stop eq_refl) as (A & B & _ & _ & D).
  destruct (start_stop_toggles Millis 6 stopped_descending eq_refl eq_refl)
    as [_ Start].
  destruct (Start eq_refl) as (A' & _ & _ & D').
  split; [exact A|]. split; [exact B|].
  split; [exact (proj2 (D eq_refl 1000%nat))|].
  split; [exact A' | exact (D' eq_refl)].
Defined.

(** ** Display *)

Lemma digits_at_in_table i :
  0 <= i < 10 ->
  exists d, digits_at i = Some d /\ nth_error digits (Z.to_nat i) = Some d.
Proof.
  intros Hi; unfold digits_at.
  destruct (Z.ltb_spec i 0); [lia|].
  destruct (nth_error digits (Z.to_nat i)) as [d|] eqn:E.
  - exists d; split; reflexivity.
  - apply nth_error_None in E; cbn [length digits] in E; lia.
Qed.

Lemma seconds_digits t :
  0 <= t < 60 ->
  wrap 8 (wrap 8 t mod 10) = t mod 10 /\ wrap 8 (wrap 8 t / 10) = t / 10 /\
  0 <= t mod 10 < 10 /\ 0 <= t / 10 < 10.
Proof.
  intros Ht.
  assert (H0 : 0 <= t mod 10 < 10) by (apply Z.mod_pos_bound; lia).
  assert (H1 : 0 <= t / 10 < 10)
    by (split; [apply Z.div_pos | apply Z.div_lt_upper_bound]; lia).
  rewrite (wrap_small 8 t) by (cbn; lia).
  rewrite !wrap_small by (cbn; lia).
  auto.
Qed.

(** C9. In the seconds variant, for every counter value in [[0, 60)] one
    iteration of the display loop succeeds and leaves on port B the table
    entry of [time mod 10] and on port D the table entry of [time / 10],
    the table being 3F 06 5B 4F 66 6D 7D 07 7F 67 (hexadecimal); for
    [time = 7] port B shows 0x07 and port D shows 0x3F. *)
Theorem display_shows_digits irqs s :
  time_in_range Seconds s ->
  digits =
    [0x3F; 0x06; 0x5B; 0x4F; 0x66; 0x6D; 0x7D; 0x07; 0x7F; 0x67] /\
  (exists s',
     main_loop_body Seconds irqs s = Some s' /\
     nth_error digits (Z.to_nat (time s mod 10)) = Some (PORTB s') /\
     nth_error digits (Z.to_nat (time s / 10)) = Some (PORTD s')) /\
  (time s = 7 ->
   exists s',
     main_loop_body Seconds irqs s = Some s' /\
     PORTB s' = 0x07 /\ PORTD s' = 0x3F).
Proof.
  unfold time_in_range; cbn [LIMIT]; intros Hr.
  destruct (seconds_digits (time s) Hr) as (W0 & W1 & B0 & B1).
  destruct (digits_at_in_table _ B0) as (d0 & D0 & N0).
  destruct (digits_at_in_table _ B1) as (d1 & D1 & N1).
  assert (E : main_loop_body Seconds irqs s =
              Some (set_PORTD d1 (set_PORTB d0 (serve Seconds irqs s)))).
  { unfold main_loop_body, load_time; rewrite W0, W1, D0, D1; reflexivity. }
  split; [reflexivity|]. split.
  - eexists; split; [exact E|]. split; [exact N0 | exact N1].
  - intros H7; eexists; split; [exact E|].
    rewrite H7 in N0, N1; vm_compute in N0, N1.
    cbn [PORTB PORTD set_PORTB set_PORTD].
    split; congruence.
Qed.

Lemma display_shows_digits_witness :
  exists s',
    main_loop_body Seconds [TimerCompare] (clock_at Seconds 7 true) = Some s' /\
    PORTB s' = 0x07 /\ PORTD s' = 0x3F.
Proof.
  refine (proj2 (proj2 (display_shows_digits [TimerCompare]
                          (clock_at Seconds 7 true) _)) eq_refl).
  unfold time_in_range; cbn; lia.
Defined.

(** ** The foreground read of the counter *)

Lemma tick_sreg_I v s : sreg_I (TIMER_COMPA_vect v s) = sreg_I s.
Proof. rewrite tick_only_time; reflexivity. Qed.

Lemma pcint_sreg_I v pinc s : sreg_I (PCINT1_vect v pinc s) = sreg_I s.
Proof. handler_cases v pinc s; reflexivity. Qed.

Lemma run_sreg_I v irqs : forall s, sreg_I (run v irqs s) = sreg_I s.
Proof.
  induction irqs as [|i irqs IH]; intros s; [reflexivity|].
  cbn [run fold_left]; fold (run v irqs (handle v i s)); rewrite IH.
  destruct i; [apply tick_sreg_I | apply pcint_sreg_I].
Qed.

Lemma serve_sreg_I v irqs s : sreg_I (serve v irqs s) = sreg_I s.
Proof.
  unfold serve; destruct (sreg_I s) eqn:E; [|exact E].
  rewrite run_sreg_I; exact E.
Qed.

Lemma main_loop_sreg_I v irqs s s' :
  main_loop_body v irqs s = Some s' -> sreg_I s' = sreg_I s.
Proof.
  unfold main_loop_body, load_time.
  destruct v;
    repeat match goal with
           | |- context [digits_at ?i] => destruct (digits_at i)
           end;
    try discriminate;
    intros [= <-]; cbn [sreg_I set_PORTD set_PORTB]; apply serve_sreg_I.
Qed.

Lemma head_counter_value v irqs s : In (time s) (counter_values v irqs s).
Proof. destruct irqs; left; reflexivity. Qed.

(** Two bytes put together give back a 16-bit value. *)
Lemma bytes_of_uint16 x :
  0 <= x < 2 ^ 16 -> byte_of 0 x + byte_of 1 x * 256 = x.
Proof.
  intros Hx; unfold byte_of.
  change (2 ^ (8 * 0)) with 1; change (2 ^ (8 * 1)) with 256.
  rewrite Z.div_1_r.
  rewrite (Z.mod_small (x / 256) 256)
    by (split; [apply Z.div_pos | apply Z.div_lt_upper_bound]; lia).
  pose proof (Z.div_mod x 256); lia.
Qed.

(** C8 (as the code has it). The display loop reads [time] with
    interrupts enabled: [main] sets the I flag before the loop and no
    iteration clears it.  In the seconds variant the counter is one byte
    and is read by one load, so the value read is a value the counter
    held.  In the milliseconds variant the two byte loads give back a
    value the counter held when no interrupt is served between them. *)
Theorem foreground_read_unprotected irqs s :
  (forall v, sreg_I (power_on v) = true) /\
  (forall v s', main_loop_body v irqs s = Some s' -> sreg_I s' = sreg_I s) /\
  (fst (load_time Seconds irqs s) = time s /\
   ~ torn Seconds irqs s (fst (load_time Seconds irqs s))) /\
  (0 <= time s < 2 ^ 16 ->
   fst (load_time Millis [] s) = time s /\
   ~ torn Millis [] s (fst (load_time Millis [] s))).
Proof.
  split; [intros v; reflexivity|].
  split; [intros v s'; apply main_loop_sreg_I|].
  split.
  - split; [reflexivity|].
    intros T; apply T; apply head_counter_value.
  - intros Hx.
    assert (E : fst (load_time Millis [] s) = time s).
    { unfold load_time, serve; cbn [run fold_left fst].
      destruct (sreg_I s); apply bytes_of_uint16; exact Hx. }
    split; [exact E|].
    rewrite E; intros T; apply T; apply head_counter_value.
Qed.

Lemma foreground_read_unprotected_witness :
  fst (load_time Millis [] after_255_ticks) = 255.
Proof.
  refine (proj1 (proj2 (proj2 (proj2
    (foreground_read_unprotected [] after_255_ticks))) _)).
  vm_compute; split; [discriminate | reflexivity].
Defined.

(** In the milliseconds variant, 255 ticks after start-up, interrupts are
    enabled while the display loop reads [time]; a tick served between
    the two byte loads takes the counter from 255 to 256, and the loop
    reads 511, a value the counter never held. *)
Lemma torn_read_millis :
  sreg_I after_255_ticks = true /\
  counter_values Millis [TimerCompare] after_255_ticks = [255; 256] /\
  fst (load_time Millis [TimerCompare] after_255_ticks) = 511 /\
  torn Millis [TimerCompare] after_255_ticks
    (fst (load_time Millis [TimerCompare] after_255_ticks)).
Proof.
  split; [vm_compute; reflexivity|].
  split; [vm_compute; reflexivity|].
  split; [vm_compute; reflexivity|].
  unfold torn.
  replace (counter_values Millis [TimerCompare] after_255_ticks)
    with [255; 256] by (vm_compute; reflexivity).
  replace (fst (load_time Millis [TimerCompare] after_255_ticks))
    with 511 by (vm_compute; reflexivity).
  intros [H|[H|[]]]; discriminate.
Qed.

(** * Further properties of the clock *)

(** ** Sequences of ticks *)

Lemma tick_step v s : step (TIMER_COMPA_vect v s) = step s.
Proof. rewrite tick_only_time; reflexivity. Qed.

Lemma run_ticks_cons v n s :
  run v (repeat TimerCompare (S n)) s =
  run v (repeat TimerCompare n) (TIMER_COMPA_vect v s).
Proof. reflexivity. Qed.

Lemma run_ticks_up v n : forall s,
  time_in_range v s -> step s = step_up ->
  time (run v (repeat TimerCompare n) s) =
    (time s + Z.of_nat n) mod LIMIT v.
Proof.
  induction n as [|n IH]; intros s Hr Hs.
  - cbn [repeat run fold_left Z.of_nat].
    rewrite Z.add_0_r, Z.mod_small; [reflexivity | exact Hr].
  - rewrite run_ticks_cons, IH.
    + rewrite (tick_up v s Hr Hs), Z.add_mod_idemp_l
        by (pose proof (LIMIT_pos v); lia).
      f_equal; lia.
    + apply tick_in_range; [exact Hr | left; exact Hs].
    + rewrite tick_step; exact Hs.
Qed.

Lemma run_ticks_down v n : forall s,
  time_in_range v s -> step s = step_down v ->
  time (run v (repeat TimerCompare n) s) =
    (time s - Z.of_nat n) mod LIMIT v.
Proof.
  induction n as [|n IH]; intros s Hr Hs.
  - cbn [repeat run fold_left Z.of_nat].
    rewrite Z.sub_0_r, Z.mod_small; [reflexivity | exact Hr].
  - rewrite run_ticks_cons, IH.
    + rewrite (tick_down v s Hr Hs), Zminus_mod_idemp_l.
      replace (time s - 1 + LIMIT v - Z.of_nat n)
        with (time s - Z.of_nat (S n) + 1 * LIMIT v) by lia.
      apply Z_mod_plus_full.
    + apply tick_in_range; [exact Hr | right; exact Hs].
    + rewrite tick_step; exact Hs.
Qed.

(** X1. From a counter in range, [n] ticks in a row add [n] modulo
    LIMIT when counting up and subtract [n] modulo LIMIT when counting
    down; LIMIT ticks in either direction bring the counter back. *)
Theorem ticks_accumulate v s :
  time_in_range v s ->
  (step s = step_up ->
   forall n : nat,
     time (run v (repeat TimerCompare n) s) =
       (time s + Z.of_nat n) mod LIMIT v) /\
  (step s = step_down v ->
   forall n : nat,
     time (run v (repeat TimerCompare n) s) =
       (time s - Z.of_nat n) mod LIMIT v) /\
  (step s = step_up \/ step s = step_down v ->
   time (run v (repeat TimerCompare (Z.to_nat (LIMIT v))) s) = time s).
Proof.
  intros Hr; pose proof (LIMIT_pos v) as HL.
  split; [|split].
  - intros Hs n; apply run_ticks_up; assumption.
  - intros Hs n; apply run_ticks_down; assumption.
  - intros [Hs|Hs].
    + rewrite run_ticks_up, Z2Nat.id by (assumption || lia).
      replace (time s + LIMIT v) with (time s + 1 * LIMIT v) by lia.
      rewrite Z_mod_plus_full; apply Z.mod_small; exact Hr.
    + rewrite run_ticks_down, Z2Nat.id by (assumption || lia).
      replace (time s - LIMIT v) with (time s + (-1) * LIMIT v) by lia.
      rewrite Z_mod_plus_full; apply Z.mod_small; exact Hr.
Qed.

Lemma ticks_accumulate_witness :
  time (run Seconds (repeat TimerCompare 75) (clock_at Seconds 50 true)) = 5 /\
  time (run Millis (repeat TimerCompare 3) (clock_at Millis 1 false)) = 59998.
Proof.
  split.
  - refine (proj1 (ticks_accumulate Seconds (clock_at Seconds 50 true) _)
              eq_refl 75%nat).
    unfold time_in_range; cbn; lia.
  - refine (proj1 (proj2 (ticks_accumulate Millis (clock_at Millis 1 false) _))
              eq_refl 3%nat).
    unfold time_in_range; cbn; lia.
Defined.

(** X2. A tick, a reversal of the direction and another tick leave the
    counter where it was: counting down undoes counting up and the other
    way round, also across the wrap at 0 and at LIMIT. *)
Theorem tick_swap_tick v s :
  time_in_range v s -> direction_ok v s ->
  time (TIMER_COMPA_vect v (swap_mode_action v (TIMER_COMPA_vect v s)))
    = time s.
Proof.
  intros Hr Hd; pose proof (LIMIT_pos v) as HL.
  pose proof (direction_step v s Hd) as Hs.
  set (s1 := TIMER_COMPA_vect v s).
  assert (Hr1 : time_in_range v s1) by (apply tick_in_range; [|apply Hd]; exact Hr).
  assert (Ha : clock_ascending s1 = clock_ascending s)
    by (unfold s1; rewrite tick_only_time; reflexivity).
  assert (Ht : time (swap_mode_action v s1) = time s1)
    by (unfold swap_mode_action; destruct (clock_ascending s1); reflexivity).
  pose proof (swap_step v s1) as Hs2; rewrite Ha in Hs2.
  destruct (clock_ascending s).
  - rewrite tick_down by (unfold time_in_range; rewrite ?Ht; assumption).
    rewrite Ht; unfold s1; rewrite (tick_up v s Hr Hs).
    replace ((time s + 1) mod LIMIT v - 1 + LIMIT v)
      with ((time s + 1) mod LIMIT v - 1 + 1 * LIMIT v) by lia.
    rewrite Z_mod_plus_full, Zminus_mod_idemp_l.
    replace (time s + 1 - 1) with (time s) by lia.
    apply Z.mod_small; exact Hr.
  - rewrite tick_up by (unfold time_in_range; rewrite ?Ht; assumption).
    rewrite Ht; unfold s1; rewrite (tick_down v s Hr Hs).
    rewrite Z.add_mod_idemp_l by lia.
    replace (time s - 1 + LIMIT v + 1) with (time s + 1 * LIMIT v) by lia.
    rewrite Z_mod_plus_full; apply Z.mod_small; exact Hr.
Qed.

Lemma tick_swap_tick_witness :
  time (TIMER_COMPA_vect Seconds
          (swap_mode_action Seconds
             (TIMER_COMPA_vect Seconds (clock_at Seconds 59 true)))) = 59.
Proof.
  apply (tick_swap_tick Seconds (clock_at Seconds 59 true)).
  - unfold time_in_range; cbn; lia.
  - unfold direction_ok; cbn.
    split; [left; reflexivity | split; reflexivity].
Defined.

(** ** The run flag and the timer control register *)

Lemma run_timer_ok v irqs : forall s, timer_ok v s -> timer_ok v (run v irqs s).
Proof.
  induction irqs as [|i irqs IH]; intros s H; [exact H|].
  cbn [run fold_left]; apply IH, handle_timer_ok, H.
Qed.

(** X3. After any sequence of handler invocations from start-up,
    [TCCRnB] holds the value [main] configured while [clock_running] is
    true and that value with the start/stop bits cleared while it is
    false: the flag is true exactly when those bits are set. *)
Theorem running_mirrors_timer v irqs :
  let s := run v irqs (power_on v) in
  TCCRB s =
    (if clock_running s then TCCRB_config v
     else Z.land (TCCRB_config v) (Z.lnot (cs_mask v))) /\
  Z.land (TCCRB s) (cs_mask v) = (if clock_running s then cs_mask v else 0).
Proof.
  cbv zeta.
  pose proof (run_timer_ok v irqs (power_on v) (power_on_timer_ok v)) as H.
  unfold timer_ok in H; split; [exact H|].
  rewrite H; destruct (clock_running _), v; reflexivity.
Qed.

(** X4. A press, a release and a second press of the start/stop button
    bring [clock_running] and [TCCRnB] back to what they were, whatever
    the other two buttons do meanwhile, provided [TCCRnB] was as the
    program keeps it. *)
Theorem start_stop_twice_restores v s p1 p2 p3 :
  timer_ok v s ->
  start_stop_edge p1 s = true ->
  is_pressed p2 0 = false -> is_pressed p3 0 = true ->
  let s1 := PCINT1_vect v p1 s in
  let s3 := PCINT1_vect v p3 (PCINT1_vect v p2 s1) in
  clock_running s1 = negb (clock_running s) /\
  clock_running s3 = clock_running s /\ TCCRB s3 = TCCRB s.
Proof.
  intros Hok E1 L2 L3; cbv zeta.
  pose proof (pcint_running v p1 s) as R1; rewrite E1 in R1.
  set (s1 := PCINT1_vect v p1 s) in *.
  assert (E2 : start_stop_edge p2 s1 = false)
    by (unfold start_stop_edge; rewrite L2; reflexivity).
  pose proof (pcint_running v p2 s1) as R2; rewrite E2 in R2.
  destruct (pcint_snapshots v p2 s1) as (W2 & _ & _).
  set (s2 := PCINT1_vect v p2 s1) in *.
  assert (E3 : start_stop_edge p3 s2 = true)
    by (unfold start_stop_edge; rewrite L3, W2, L2; reflexivity).
  pose proof (pcint_running v p3 s2) as R3; rewrite E3, R2, R1 in R3.
  rewrite negb_involutive in R3.
  assert (Hok3 : timer_ok v (PCINT1_vect v p3 s2)).
  { apply (handle_timer_ok v (PinChange p3)).
    apply (handle_timer_ok v (PinChange p2)).
    apply (handle_timer_ok v (PinChange p1)); exact Hok. }
  split; [exact R1|]. split; [exact R3|].
  unfold timer_ok in Hok, Hok3; rewrite Hok3, R3, Hok; reflexivity.
Qed.

Lemma start_stop_twice_restores_witness :
  clock_running (PCINT1_vect Seconds 6 near_top) = false /\
  clock_running
    (PCINT1_vect Seconds 2 (PCINT1_vect Seconds 5 (PCINT1_vect Seconds 6 near_top)))
    = true /\
  TCCRB
    (PCINT1_vect Seconds 2 (PCINT1_vect Seconds 5 (PCINT1_vect Seconds 6 near_top)))
    = 0x0B.
Proof.
  exact (start_stop_twice_restores Seconds near_top 6 5 2
           eq_refl eq_refl eq_refl eq_refl).
Defined.

(** ** Invocations without a press *)

Lemma pcint_no_edge v pinc s :
  start_stop_edge pinc s = false -> swap_mode_edge pinc s = false ->
  reset_edge pinc s = false ->
  PCINT1_vect v pinc s =
    set_was_pressed (is_pressed pinc 0) (is_pressed pinc 1)
      (is_pressed pinc 2) s.
Proof.
  intros E0 E1 E2; rewrite PCINT1_vect_edges, E0, E1, E2; reflexivity.
Qed.

(** X5. Pin-change interrupts during which none of the three buttons is
    down (releases, changes of the other pins of port C) never act on
    the clock: after any non-empty sequence of them the state is the
    state before with the three snapshots cleared. *)
Theorem released_pins_change_nothing v pincs : forall s,
  Forall all_released pincs -> pincs <> [] ->
  run v (map PinChange pincs) s = set_was_pressed false false false s.
Proof.
  induction pincs as [|p pincs IH]; intros s HF Hne; [contradiction|].
  inversion HF as [|? ? (L0 & L1 & L2) HF']; subst.
  cbn [map run fold_left handle].
  assert (E : PCINT1_vect v p s = set_was_pressed false false false s).
  { rewrite pcint_no_edge;
      unfold start_stop_edge, swap_mode_edge, reset_edge;
      rewrite ?L0, ?L1, ?L2; reflexivity. }
  rewrite E.
  destruct pincs as [|q pincs]; [reflexivity|].
  change (fold_left (fun s i => handle v i s) (map PinChange (q :: pincs))
            (set_was_pressed false false false s))
    with (run v (map PinChange (q :: pincs))
            (set_was_pressed false false false s)).
  rewrite IH by (assumption || discriminate).
  reflexivity.
Qed.

Lemma released_pins_change_nothing_witness :
  run Seconds (map PinChange [7; 15; 255]) near_top =
  set_was_pressed false false false near_top.
Proof.
  apply (released_pins_change_nothing Seconds [7; 15; 255] near_top).
  - repeat constructor.
  - discriminate.
Defined.

(** ** Table lookups of the display loop *)

Lemma digits_at_outside i : 10 <= i -> digits_at i = None.
Proof.
  intros Hi; unfold digits_at.
  destruct (Z.ltb_spec i 0); [reflexivity|].
  apply nth_error_None; cbn [length digits]; lia.
Qed.

Lemma byte_of_bounds k x : 0 <= byte_of k x < 256.
Proof. unfold byte_of; apply Z.mod_pos_bound; lia. Qed.

Lemma millis_digits t :
  0 <= t < 65536 ->
  wrap 8 (wrap 8 (t / 1000) mod 10) = (t / 1000) mod 10 /\
  wrap 8 (wrap 8 (t / 1000) / 10) = t / 1000 / 10 /\
  0 <= (t / 1000) mod 10 < 10 /\ 0 <= t / 1000 / 10 < 10.
Proof.
  intros Ht.
  assert (Hc : 0 <= t / 1000 < 66)
    by (split; [apply Z.div_pos | apply Z.div_lt_upper_bound]; lia).
  assert (H0 : 0 <= (t / 1000) mod 10 < 10) by (apply Z.mod_pos_bound; lia).
  assert (H1 : 0 <= t / 1000 / 10 < 10)
    by (split; [apply Z.div_pos | apply Z.div_lt_upper_bound]; lia).
  rewrite (wrap_small 8 (t / 1000)) by (cbn; lia).
  rewrite !wrap_small by (cbn; lia).
  auto.
Qed.

Lemma millis_loop_value irqs s :
  let t := fst (load_time Millis irqs s) in
  0 <= t < 65536 /\
  exists d0 d1,
    nth_error digits (Z.to_nat ((t / 1000) mod 10)) = Some d0 /\
    nth_error digits (Z.to_nat (t / 1000 / 10)) = Some d1 /\
    main_loop_body Millis irqs s =
      Some (set_PORTD d1 (set_PORTB d0 (serve Millis irqs s))).
Proof.
  cbv zeta.
  assert (Ht : 0 <= fst (load_time Millis irqs s) < 65536).
  { unfold load_time; cbn [fst].
    pose proof (byte_of_bounds 0 (time s)).
    pose proof (byte_of_bounds 1 (time (serve Millis irqs s))). lia. }
  split; [exact Ht|].
  destruct (millis_digits _ Ht) as (W0 & W1 & B0 & B1).
  destruct (digits_at_in_table _ B0) as (d0 & D0 & N0).
  destruct (digits_at_in_table _ B1) as (d1 & D1 & N1).
  exists d0, d1; split; [exact N0|]. split; [exact N1|].
  unfold main_loop_body.
  destruct (load_time Millis irqs s) as [t s1] eqn:E.
  assert (Es : s1 = serve Millis irqs s) by (unfold load_time in E; congruence).
  cbn [fst] in *; rewrite W0, W1, D0, D1, Es; reflexivity.
Qed.

Lemma load_time_undisturbed s :
  0 <= time s < 2 ^ 16 -> fst (load_time Millis [] s) = time s.
Proof.
  intros Hx; unfold load_time, serve; cbn [run fold_left fst].
  destruct (sreg_I s); apply bytes_of_uint16; exact Hx.
Qed.

(** X6. In the milliseconds variant an iteration of the display loop
    never indexes outside the 10-entry table, whatever the state and
    whatever interrupts are served during the read of [time]; with no
    interrupt during the read and [time] a 16-bit value, port B receives
    the pattern of the units digit and port D that of the tens digit of
    the whole seconds [time / 1000]. *)
Theorem millis_display irqs s :
  (exists s', main_loop_body Millis irqs s = Some s') /\
  (0 <= time s < 2 ^ 16 ->
   exists s',
     main_loop_body Millis [] s = Some s' /\
     nth_error digits (Z.to_nat ((time s / 1000) mod 10)) = Some (PORTB s') /\
     nth_error digits (Z.to_nat (time s / 1000 / 10)) = Some (PORTD s')).
Proof.
  split.
  - destruct (millis_loop_value irqs s) as (_ & d0 & d1 & _ & _ & E).
    eexists; exact E.
  - intros Hx.
    destruct (millis_loop_value [] s) as (_ & d0 & d1 & N0 & N1 & E).
    pose proof (load_time_undisturbed s Hx) as R.
    rewrite R in N0, N1.
    eexists; split; [exact E|]. split; [exact N0 | exact N1].
Qed.

Lemma millis_display_witness :
  exists s',
    main_loop_body Millis [] (clock_at Millis 39935 true) = Some s' /\
    nth_error digits 9 = Some (PORTB s') /\
    nth_error digits 3 = Some (PORTD s').
Proof.
  refine (proj2 (millis_display [] (clock_at Millis 39935 true)) _).
  vm_compute; split; [discriminate | reflexivity].
Defined.

(** X7. In the seconds variant, with [time] any 8-bit value, the table
    lookups of a display-loop iteration stay inside the 10-entry table
    exactly when [time] is below 100: the tens digit [time / 10] of a
    larger value indexes past the table. *)
Theorem seconds_display_bounds irqs s :
  0 <= time s < 256 ->
  (main_loop_body Seconds irqs s = None <-> 100 <= time s).
Proof.
  intros Hr.
  assert (H1 : 0 <= time s / 10 < 26)
    by (split; [apply Z.div_pos | apply Z.div_lt_upper_bound]; lia).
  assert (H0 : 0 <= time s mod 10 < 10) by (apply Z.mod_pos_bound; lia).
  unfold main_loop_body, load_time.
  rewrite (wrap_small 8 (time s)) by (cbn; lia).
  rewrite !wrap_small by (cbn; lia).
  destruct (digits_at_in_table _ H0) as (d0 & D0 & _); rewrite D0.
  destruct (Z_lt_le_dec (time s) 100) as [Lt|Ge].
  - assert (B1 : 0 <= time s / 10 < 10)
      by (split; [lia | apply Z.div_lt_upper_bound; lia]).
    destruct (digits_at_in_table _ B1) as (d1 & D1 & _); rewrite D1.
    split; [discriminate | lia].
  - rewrite digits_at_outside
      by (apply Z.div_le_lower_bound; lia).
    split; [intros _; exact Ge | reflexivity].
Qed.

Lemma seconds_display_bounds_witness :
  main_loop_body Seconds [] (clock_at Seconds 100 true) = None.
Proof.
  refine (proj2 (seconds_display_bounds [] (clock_at Seconds 100 true) _) _).
  - cbn; lia.
  - cbn; lia.
Defined.

(** ** Phase of the timer across a reversal *)

Lemma set_TCNT_same s : set_TCNT (TCNT s) s = s.
Proof. destruct s; reflexivity. Qed.

(** A clocked timer below TOP only counts. *)
Lemma timer_counts v n : forall s,
  clock_select (TCCRB s) <> 0 ->
  0 <= TCNT s -> TCNT s + Z.of_nat n <= TIMER_TOP v ->
  Nat.iter n (timer_clock v) s = set_TCNT (TCNT s + Z.of_nat n) s.
Proof.
  induction n as [|n IH]; intros s Hc H0 Hn.
  - cbn [Nat.iter nat_rect Z.of_nat]; rewrite Z.add_0_r, set_TCNT_same.
    reflexivity.
  - rewrite Nat.iter_succ, IH by lia.
    unfold timer_clock; cbn [TCCRB TCNT set_TCNT].
    destruct (Z.eqb_spec (clock_select (TCCRB s)) 0); [contradiction|].
    destruct (Z.eqb_spec (TCNT s + Z.of_nat n) (TIMER_TOP v)); [lia|].
    pose proof (TIMER_TOP_fits v).
    rewrite wrap_small by lia.
    replace (TCNT s + Z.of_nat n + 1) with (TCNT s + Z.of_nat (S n)) by lia.
    reflexivity.
Qed.

Lemma timer_compare_match v s :
  clock_select (TCCRB s) <> 0 -> TCNT s = TIMER_TOP v ->
  timer_clock v s = TIMER_COMPA_vect v (set_TCNT 0 s).
Proof.
  intros Hc Ht; unfold timer_clock.
  destruct (Z.eqb_spec (clock_select (TCCRB s)) 0); [contradiction|].
  rewrite Ht, Z.eqb_refl; reflexivity.
Qed.

Lemma swap_TCCRB v s : TCCRB (swap_mode_action v s) = TCCRB s.
Proof. unfold swap_mode_action; destruct (clock_ascending s); reflexivity. Qed.

(** X8. With the timer clocked and its counter at [k] in [[0, TOP]]
    (so [k] timer clocks after the last tick), swapping the direction
    makes the next tick come exactly [k + 1] timer clocks later: the
    first [k] clocks only count, without changing [time], and the next
    one is the compare match that runs the tick handler. *)
Theorem swap_mirrors_phase v s :
  clock_select (TCCRB s) <> 0 -> 0 <= TCNT s <= TIMER_TOP v ->
  let s' := swap_mode_action v s in
  (forall n : nat,
     Z.of_nat n <= TCNT s ->
     time (Nat.iter n (timer_clock v) s') = time s' /\
     TCNT (Nat.iter n (timer_clock v) s') = TIMER_TOP v - TCNT s + Z.of_nat n) /\
  Nat.iter (S (Z.to_nat (TCNT s))) (timer_clock v) s' =
    TIMER_COMPA_vect v (set_TCNT 0 s').
Proof.
  intros Hc Hk; cbv zeta.
  destruct (remap_twice v (TCNT s) Hk) as [R1 _].
  assert (Hc' : clock_select (TCCRB (swap_mode_action v s)) <> 0)
    by (rewrite swap_TCCRB; exact Hc).
  assert (Ht : TCNT (swap_mode_action v s) = TIMER_TOP v - TCNT s)
    by (rewrite swap_TCNT; exact R1).
  split.
  - intros n Hn.
    rewrite timer_counts by (assumption || lia).
    rewrite Ht; split; reflexivity.
  - rewrite Nat.iter_succ, timer_counts by (assumption || lia).
    rewrite timer_compare_match.
    + destruct (swap_mode_action v s); reflexivity.
    + exact Hc'.
    + cbn [TCNT set_TCNT]; rewrite Ht; lia.
Qed.

Lemma swap_mirrors_phase_witness :
  TCNT (Nat.iter 3 (timer_clock Millis)
          (swap_mode_action Millis (set_TCNT 3 (clock_at Millis 5 true))))
    = 124 /\
  time (Nat.iter 4 (timer_clock Millis)
          (swap_mode_action Millis (set_TCNT 3 (clock_at Millis 5 true))))
    = 4.
Proof.
  assert (Hc : clock_select (TCCRB (set_TCNT 3 (clock_at Millis 5 true))) <> 0)
    by discriminate.
  assert (Hk : 0 <= TCNT (set_TCNT 3 (clock_at Millis 5 true))
               <= TIMER_TOP Millis) by (cbn; lia).
  destruct (swap_mirrors_phase Millis (set_TCNT 3 (clock_at Millis 5 true))
              Hc Hk) as [A B].
  split.
  - refine (proj2 (A 3%nat _)); cbn; lia.
  - change 4%nat with (S (Z.to_nat (TCNT (set_TCNT 3 (clock_at Millis 5 true))))).
    rewrite B; reflexivity.
Defined.

(** * The ADC sampler *)

Lemma store_inside a : forall i x,
  (i < length a)%nat ->
  exists a', Sampler.store a i x = Some a' /\ length a' = length a /\
    forall j d, nth j a' d = if Nat.eqb j i then x else nth j a d.
Proof.
  induction a as [|h t IH]; intros i x Hi; cbn [length] in Hi; [lia|].
  destruct i as [|i]; cbn [Sampler.store].
  - exists (x :: t); split; [reflexivity|]. split; [reflexivity|].
    intros [|j] d; reflexivity.
  - destruct (IH i x) as (t' & E & L & N); [lia|].
    rewrite E; exists (h :: t'); split; [reflexivity|].
    split; [cbn [length]; congruence|].
    intros [|j] d; [reflexivity | cbn [nth Nat.eqb]; apply N].
Qed.

Lemma store_outside a : forall i x,
  (length a <= i)%nat -> Sampler.store a i x = None.
Proof.
  induction a as [|h t IH]; intros i x Hi; [destruct i; reflexivity|].
  destruct i as [|i]; cbn [length] in Hi; [lia|].
  cbn [Sampler.store]; rewrite IH by lia; reflexivity.
Qed.

Lemma adc_step adc s :
  Sampler.index_ok s ->
  exists a',
    Sampler.store (Sampler.samples s)
      (Z.to_nat (Sampler.current_sample s)) adc = Some a' /\
    Sampler.ADC_vect adc s =
      Some (Sampler.mkState a'
              ((Sampler.current_sample s + 1) mod Sampler.SAMPLES_NUMBER)).
Proof.
  unfold Sampler.index_ok, Sampler.SAMPLES_NUMBER; intros [HL Hc].
  destruct (store_inside (Sampler.samples s)
              (Z.to_nat (Sampler.current_sample s)) adc) as (a' & E & _ & _);
    [lia|].
  exists a'; split; [exact E|].
  unfold Sampler.ADC_vect, Sampler.SAMPLES_NUMBER.
  destruct (Z.ltb_spec (Sampler.current_sample s) 0); [lia|].
  rewrite E, wrap_small by (cbn; lia).
  destruct (Z.eqb_spec (Sampler.current_sample s + 1) 20) as [E20|N20].
  - rewrite E20; reflexivity.
  - rewrite Z.mod_small by lia; reflexivity.
Qed.

(** X9. From every state whose index is inside the array of 20 samples,
    the conversion-complete handler stores the value at the index
    without leaving the array, keeps the array length, and advances the
    index by one modulo 20; the start-up state is such a state.  With
    the index at or past 20 the store would fall outside the array. *)
Theorem adc_handler_in_bounds adc s :
  Sampler.index_ok Sampler.init /\
  (Sampler.index_ok s ->
   exists s',
     Sampler.ADC_vect adc s = Some s' /\
     Sampler.index_ok s' /\
     Sampler.current_sample s' = (Sampler.current_sample s + 1) mod 20 /\
     nth (Z.to_nat (Sampler.current_sample s)) (Sampler.samples s') 0 = adc) /\
  ((length (Sampler.samples s) <= Z.to_nat (Sampler.current_sample s))%nat ->
   Sampler.ADC_vect adc s = None).
Proof.
  split; [split; [reflexivity | unfold Sampler.SAMPLES_NUMBER; cbn; lia]|].
  split.
  - intros Hok; destruct (adc_step adc s Hok) as (a' & E & H).
    destruct Hok as [HL Hc]; unfold Sampler.SAMPLES_NUMBER in *.
    destruct (store_inside (Sampler.samples s)
                (Z.to_nat (Sampler.current_sample s)) adc) as (a'' & E' & L & N);
      [lia|].
    assert (a'' = a') by congruence; subst a''.
    eexists; split; [exact H|].
    unfold Sampler.index_ok, Sampler.SAMPLES_NUMBER.
    cbn [Sampler.samples Sampler.current_sample].
    split; [split; [congruence | apply Z.mod_pos_bound; lia]|].
    split; [reflexivity|].
    rewrite N, Nat.eqb_refl; reflexivity.
  - intros Hout; unfold Sampler.ADC_vect.
    destruct (Sampler.current_sample s <? 0); [reflexivity|].
    rewrite store_outside by exact Hout; reflexivity.
Qed.

Lemma adc_handler_in_bounds_witness :
  exists s',
    Sampler.ADC_vect 777 (Sampler.mkState (repeat 5 20) 19) = Some s' /\
    Sampler.current_sample s' = 0 /\
    nth 19 (Sampler.samples s') 0 = 777.
Proof.
  destruct (proj1 (proj2 (adc_handler_in_bounds 777
              (Sampler.mkState (repeat 5 20) 19))))
    as (s' & E & _ & C & N).
  - split; [reflexivity | unfold Sampler.SAMPLES_NUMBER; cbn; lia].
  - exists s'; split; [exact E|]. split; [exact C | exact N].
Defined.

Lemma succ_mod_20 n :
  (Z.of_nat (n mod 20) + 1) mod 20 = Z.of_nat ((n + 1) mod 20).
Proof.
  transitivity (Z.of_nat ((n mod 20 + 1) mod 20)).
  - rewrite (Nat2Z.inj_mod (n mod 20 + 1)), Nat2Z.inj_add; reflexivity.
  - f_equal; apply Nat.Div0.add_mod_idemp_l.
Qed.

Lemma distinct_slots i n :
  (i < n)%nat -> (n <= i + 19)%nat -> (i mod 20 <> n mod 20)%nat.
Proof.
  intros Hi Hn E.
  pose proof (Nat.div_mod_eq i 20); pose proof (Nat.div_mod_eq n 20).
  rewrite E in *; lia.
Qed.

Lemma conversions_snoc adcs x : forall s,
  Sampler.conversions (adcs ++ [x]) s =
    match Sampler.conversions adcs s with
    | Some s' => Sampler.ADC_vect x s'
    | None => None
    end.
Proof.
  induction adcs as [|a adcs IH]; intros s; cbn [app Sampler.conversions].
  - destruct (Sampler.ADC_vect x s); reflexivity.
  - destruct (Sampler.ADC_vect a s); [apply IH | reflexivity].
Qed.

(** What the ring holds after the conversions [adcs]: every one of the
    last 20 values sits at its position modulo 20, and the slots not yet
    reached hold the initial 0. *)
Lemma ring_invariant adcs :
  exists s,
    Sampler.conversions adcs Sampler.init = Some s /\
    Sampler.index_ok s /\
    Sampler.current_sample s = Z.of_nat (length adcs mod 20) /\
    (forall i, (i < length adcs)%nat -> (length adcs <= i + 20)%nat ->
       nth (i mod 20) (Sampler.samples s) 0 = nth i adcs 0) /\
    (forall j, (length adcs <= j < 20)%nat ->
       nth j (Sampler.samples s) 0 = 0).
Proof.
  induction adcs as [|x adcs IH] using rev_ind.
  - exists Sampler.init; split; [reflexivity|].
    split; [split; [reflexivity | unfold Sampler.SAMPLES_NUMBER; cbn; lia]|].
    split; [reflexivity|]. split.
    + intros i Hi; cbn [length] in Hi; lia.
    + intros j Hj; unfold Sampler.init, Sampler.SAMPLES_NUMBER.
      cbn [Sampler.samples]; apply nth_repeat.
  - destruct IH as (s & E & Hok & Hc & Hlast & Hfree).
    rewrite conversions_snoc, E.
    destruct (adc_step x s Hok) as (a' & Est & Estep).
    destruct Hok as [HL HR]; unfold Sampler.SAMPLES_NUMBER in *.
    destruct (store_inside (Sampler.samples s)
                (Z.to_nat (Sampler.current_sample s)) x) as (a'' & E' & L & N);
      [lia|].
    assert (a'' = a') by congruence; subst a''.
    assert (Hidx : Z.to_nat (Sampler.current_sample s) = (length adcs mod 20)%nat)
      by (rewrite Hc; apply Nat2Z.id).
    rewrite Hidx in N.
    rewrite length_app; cbn [length].
    eexists; split; [exact Estep|].
    unfold Sampler.index_ok, Sampler.SAMPLES_NUMBER.
    cbn [Sampler.samples Sampler.current_sample].
    split; [split; [congruence | apply Z.mod_pos_bound; lia]|].
    split; [rewrite Hc; apply succ_mod_20|]. split.
    + intros i Hi Hw; rewrite N.
      destruct (Nat.eq_dec i (length adcs)) as [->|Hne].
      * rewrite Nat.eqb_refl, nth_middle; reflexivity.
      * destruct (Nat.eqb_spec (i mod 20) (length adcs mod 20)) as [Em|_];
          [exfalso; revert Em; apply distinct_slots; lia|].
        rewrite app_nth1 by lia; apply Hlast; lia.
    + intros j Hj; rewrite N.
      destruct (Nat.eqb_spec j (length adcs mod 20)) as [Em|_];
        [rewrite Nat.mod_small in Em by lia; lia|].
      apply Hfree; lia.
Qed.

(** X10. Started from the initial state, any number of conversions is
    handled without ever storing outside the array, and after [n] of
    them the index is [n mod 20]. *)
Theorem conversions_wrap_index adcs :
  exists s,
    Sampler.conversions adcs Sampler.init = Some s /\
    length (Sampler.samples s) = 20%nat /\
    Sampler.current_sample s = Z.of_nat (length adcs mod 20).
Proof.
  destruct (ring_invariant adcs) as (s & E & [HL _] & Hc & _).
  exists s; split; [exact E|]. split; [exact HL | exact Hc].
Qed.

(** X11. The array is a ring of the latest samples: after the
    conversions [adcs], each of the last 20 values read (the [i]-th, for
    [i] within 20 of the end) is found at position [i mod 20], and the
    positions not written yet still hold 0. *)
Theorem ring_keeps_latest adcs :
  exists s,
    Sampler.conversions adcs Sampler.init = Some s /\
    (forall i, (i < length adcs)%nat -> (length adcs <= i + 20)%nat ->
       nth (i mod 20) (Sampler.samples s) 0 = nth i adcs 0) /\
    (forall j, (length adcs <= j < 20)%nat ->
       nth j (Sampler.samples s) 0 = 0).
Proof.
  destruct (ring_invariant adcs) as (s & E & _ & _ & Hlast & Hfree).
  exists s; split; [exact E|]. split; [exact Hlast | exact Hfree].
Qed.

Lemma ring_keeps_latest_witness :
  exists s,
    Sampler.conversions (map Z.of_nat (seq 100 25)) Sampler.init = Some s /\
    nth 1 (Sampler.samples s) 0 = 121 /\ nth 7 (Sampler.samples s) 0 = 107.
Proof.
  destruct (ring_keeps_latest (map Z.of_nat (seq 100 25)))
    as (s & E & Hlast & _).
  exists s; split; [exact E|]. split.
  - exact (Hlast 21%nat ltac:(cbn; lia) ltac:(cbn; lia)).
  - exact (Hlast 7%nat ltac:(cbn; lia) ltac:(cbn; lia)).
Defined.

(** * The keypad display *)

(** The scan, unrolled: the last button found down decides. *)
Lemma pressed_digit_priority pind :
  Keypad.pressed_digit pind =
    if Keypad.button_down pind 7 then 8 else
    if Keypad.button_down pind 6 then 7 else
    if Keypad.button_down pind 5 then 6 else
    if Keypad.button_down pind 4 then 5 else
    if Keypad.button_down pind 3 then 4 else
    if Keypad.button_down pind 2 then 3 else
    if Keypad.button_down pind 1 then 2 else
    if Keypad.button_down pind 0 then 1 else 0.
Proof.
  unfold Keypad.pressed_digit, Keypad.scan_step; cbn [fold_left].
  destruct (Keypad.button_down pind 7), (Keypad.button_down pind 6),
    (Keypad.button_down pind 5), (Keypad.button_down pind 4),
    (Keypad.button_down pind 3), (Keypad.button_down pind 2),
    (Keypad.button_down pind 1), (Keypad.button_down pind 0);
    reflexivity.
Qed.

(** X12. Whatever the levels of port D, the scan yields a digit between
    0 and 8, so the lookup in the 9-entry table is always inside it and
    an iteration always has a pattern to write to port B. *)
Theorem keypad_lookup_in_table pind :
  0 <= Keypad.pressed_digit pind <= 8 /\
  exists d, Keypad.main_loop_body pind = Some d.
Proof.
  unfold Keypad.main_loop_body; rewrite pressed_digit_priority.
  repeat case_if; (split; [lia | eexists; reflexivity]).
Qed.

(** X13. The digit shown is that of the highest button held down: it is
    0 exactly when none of the eight buttons is down, and [k + 1] when
    button [k] is down and no button above it is. *)
Theorem keypad_highest_wins pind :
  ((forall i, 0 <= i < 8 -> Keypad.button_down pind i = false) <->
   Keypad.pressed_digit pind = 0) /\
  (forall k, 0 <= k < 8 ->
     Keypad.button_down pind k = true ->
     (forall j, k < j < 8 -> Keypad.button_down pind j = false) ->
     Keypad.pressed_digit pind = k + 1).
Proof.
  rewrite pressed_digit_priority; split; [split|].
  - intros H.
    rewrite (H 7), (H 6), (H 5), (H 4), (H 3), (H 2), (H 1), (H 0) by lia.
    reflexivity.
  - intros H i Hi.
    assert (C : i = 0 \/ i = 1 \/ i = 2 \/ i = 3 \/
                i = 4 \/ i = 5 \/ i = 6 \/ i = 7) by lia.
    revert H; repeat case_if; try discriminate; intros _.
    repeat (destruct C as [->|C]; [assumption|]); subst i; assumption.
  - intros k Hk Hd Habove.
    assert (C : k = 0 \/ k = 1 \/ k = 2 \/ k = 3 \/
                k = 4 \/ k = 5 \/ k = 6 \/ k = 7) by lia.
    repeat (destruct C as [->|C];
            [rewrite ?(Habove 7), ?(Habove 6), ?(Habove 5), ?(Habove 4),
               ?(Habove 3), ?(Habove 2), ?(Habove 1) by lia;
             rewrite Hd; reflexivity|]).
    subst k.
    rewrite Hd; reflexivity.
Qed.

Lemma keypad_highest_wins_witness :
  Keypad.pressed_digit 0xD7 = 6 /\ Keypad.pressed_digit 0xFF = 0.
Proof.
  destruct (keypad_highest_wins 0xD7) as [_ H].
  destruct (keypad_highest_wins 0xFF) as [[H0 _] _].
  split.
  - apply (H 5); [lia | reflexivity|].
    intros j Hj.
    assert (C : j = 6 \/ j = 7) by lia.
    destruct C as [->| ->]; reflexivity.
  - apply H0; intros i Hi.
    assert (C : i = 0 \/ i = 1 \/ i = 2 \/ i = 3 \/
                i = 4 \/ i = 5 \/ i = 6 \/ i = 7) by lia.
    repeat (destruct C as [->|C]; [reflexivity|]); subst i; reflexivity.
Defined.

(** * The serial sampler *)

(** ** Commands received *)

Lemma receive_snoc bytes b s :
  Serial.receive (bytes ++ [b]) s =
  Serial.USART_RX_vect b (Serial.receive bytes s).
Proof. unfold Serial.receive; rewrite fold_left_app; reflexivity. Qed.

(** X14. Reception only switches [should_transmit]: after any bytes
    received, the flag is what the last ['0'] or ['1'] among them asked
    for (true for ['1']), or what it was if there was none; every other
    byte is ignored, and the sample and its flag are never touched. *)
Theorem rx_last_command_wins bytes s :
  let s' := Serial.receive bytes s in
  Serial.should_transmit s' =
    match rev (filter (fun b => (b =? 48) || (b =? 49)) bytes) with
    | [] => Serial.should_transmit s
    | b :: _ => b =? 49
    end /\
  Serial.has_new_sample s' = Serial.has_new_sample s /\
  Serial.sample s' = Serial.sample s.
Proof.
  cbv zeta; induction bytes as [|b bytes IH] using rev_ind.
  - repeat split.
  - destruct IH as (IH1 & IH2 & IH3).
    rewrite receive_snoc, filter_app, rev_app_distr.
    unfold Serial.USART_RX_vect; cbn [filter].
    destruct (Z.eqb_spec b 48) as [->|N48]; cbn [orb].
    + cbn; auto.
    + destruct (Z.eqb_spec b 49) as [->|N49]; cbn; auto.
Qed.

(** ** Decimal digits of a sample *)

Lemma load_digit r :
  0 <= r < 10 -> Serial.load Serial.digits r = Some (48 + r).
Proof.
  intros Hr.
  assert (C : r = 0 \/ r = 1 \/ r = 2 \/ r = 3 \/ r = 4 \/
              r = 5 \/ r = 6 \/ r = 7 \/ r = 8 \/ r = 9) by lia.
  repeat (destruct C as [->|C]; [reflexivity|]); subst r; reflexivity.
Qed.

Lemma digit_step_some chars x i :
  Serial.digit_step (Some (chars, x)) i =
    match Serial.store chars (3 - i) (48 + x mod 10) with
    | Some chars' => Some (chars', x / 10)
    | None => None
    end.
Proof.
  unfold Serial.digit_step.
  rewrite load_digit by (apply Z.mod_pos_bound; lia); reflexivity.
Qed.

Lemma to_chars_digits chars0 x :
  length chars0 = 4%nat ->
  Serial.to_chars chars0 x =
    Some [48 + (x / 1000) mod 10; 48 + (x / 100) mod 10;
          48 + (x / 10) mod 10; 48 + x mod 10].
Proof.
  intros HL.
  destruct chars0 as [|c0 [|c1 [|c2 [|c3 [|? ?]]]]]; try discriminate.
  unfold Serial.to_chars; cbn [fold_left].
  rewrite digit_step_some.
  change (Serial.store [c0; c1; c2; c3] (3 - 0) (48 + x mod 10))
    with (Some [c0; c1; c2; 48 + x mod 10]); cbv beta iota.
  rewrite digit_step_some.
  change (Serial.store [c0; c1; c2; 48 + x mod 10] (3 - 1)
            (48 + (x / 10) mod 10))
    with (Some [c0; c1; 48 + (x / 10) mod 10; 48 + x mod 10]); cbv beta iota.
  rewrite digit_step_some.
  change (Serial.store [c0; c1; 48 + (x / 10) mod 10; 48 + x mod 10] (3 - 2)
            (48 + (x / 10 / 10) mod 10))
    with (Some [c0; 48 + (x / 10 / 10) mod 10; 48 + (x / 10) mod 10;
                48 + x mod 10]); cbv beta iota.
  rewrite digit_step_some.
  change (Serial.store
            [c0; 48 + (x / 10 / 10) mod 10; 48 + (x / 10) mod 10;
             48 + x mod 10] (3 - 3) (48 + (x / 10 / 10 / 10) mod 10))
    with (Some [48 + (x / 10 / 10 / 10) mod 10; 48 + (x / 10 / 10) mod 10;
                48 + (x / 10) mod 10; 48 + x mod 10]); cbv beta iota.
  rewrite !Z.div_div by lia.
  reflexivity.
Qed.

(** X15. The digit loop fills all four characters, whatever the array
    held before, with the ASCII digits of the thousands, hundreds, tens
    and units of the sample; read back as a decimal number they give the
    sample modulo 10000, hence the sample itself when it is below 10000
    (as every 10-bit ADC value is). *)
Theorem to_chars_decimal chars0 x :
  length chars0 = 4%nat -> 0 <= x ->
  exists chars,
    Serial.to_chars chars0 x = Some chars /\
    chars = [48 + (x / 1000) mod 10; 48 + (x / 100) mod 10;
             48 + (x / 10) mod 10; 48 + x mod 10] /\
    Forall (fun c => 48 <= c <= 57) chars /\
    Serial.decimal_value chars = x mod 10000 /\
    (x < 10000 -> Serial.decimal_value chars = x).
Proof.
  intros HL Hx; eexists; split; [apply to_chars_digits; exact HL|].
  split; [reflexivity|].
  assert (D : Serial.decimal_value
                [48 + (x / 1000) mod 10; 48 + (x / 100) mod 10;
                 48 + (x / 10) mod 10; 48 + x mod 10] = x mod 10000).
  { unfold Serial.decimal_value; cbn [fold_left].
    Z.to_euclidean_division_equations; lia. }
  split; [|split].
  - repeat constructor;
      match goal with
      | |- context [?a mod 10] => pose proof (Z.mod_pos_bound a 10)
      end; lia.
  - exact D.
  - intros Hlt; rewrite D; apply Z.mod_small; lia.
Qed.

Lemma to_chars_decimal_witness :
  exists chars,
    Serial.to_chars [0; 0; 0; 0] 1023 = Some chars /\
    chars = [49; 48; 50; 51] /\ Serial.decimal_value chars = 1023.
Proof.
  destruct (to_chars_decimal [0; 0; 0; 0] 1023 eq_refl ltac:(lia))
    as (chars & E & C & _ & _ & D).
  exists chars; split; [exact E|]. split; [exact C|].
  apply D; lia.
Defined.

(** ** Polling transmission *)

Lemma transmit_spec polls data :
  match Serial.USART_transmit polls data with
  | Some (rest, b) =>
      exists waited ready,
        polls = waited ++ ready :: rest /\
        Forall (fun p => Serial.buffer_empty p = false) waited /\
        Serial.buffer_empty ready = true /\ b = wrap 8 data
  | None => Forall (fun p => Serial.buffer_empty p = false) polls
  end.
Proof.
  induction polls as [|p polls IH]; cbn [Serial.USART_transmit].
  - constructor.
  - destruct (Serial.buffer_empty p) eqn:Ep.
    + exists [], p; repeat split; [constructor | exact Ep].
    + destruct (Serial.USART_transmit polls data) as [[rest b]|].
      * destruct IH as (waited & ready & -> & Hw & Hr & Hb).
        exists (p :: waited), ready; repeat split; try assumption.
        constructor; assumption.
      * constructor; assumption.
Qed.

(** X16. [USART_transmit] writes the data byte only after a read of
    [UCSR0A] that shows the transmit buffer empty: every read it made
    before showed it full.  It is still waiting at the end of the reads
    exactly when none of them shows the buffer empty. *)
Theorem transmit_waits_for_buffer polls data :
  (forall rest b,
     Serial.USART_transmit polls data = Some (rest, b) ->
     exists waited ready,
       polls = waited ++ ready :: rest /\
       Forall (fun p => Serial.buffer_empty p = false) waited /\
       Serial.buffer_empty ready = true /\ b = wrap 8 data) /\
  (Serial.USART_transmit polls data = None <->
   Forall (fun p => Serial.buffer_empty p = false) polls).
Proof.
  pose proof (transmit_spec polls data) as H.
  split; [|split].
  - intros rest b E; rewrite E in H; exact H.
  - intros E; rewrite E in H; exact H.
  - intros HF.
    destruct (Serial.USART_transmit polls data) as [[rest b]|];
      [|reflexivity].
    destruct H as (waited & ready & -> & _ & Hr & _).
    apply Forall_app in HF; destruct HF as [_ HF].
    inversion HF; congruence.
Qed.

Lemma transmit_waits_for_buffer_witness :
  exists waited ready,
    [0; 0x40; 0x20; 0x60] = waited ++ ready :: [0x60] /\
    Forall (fun p => Serial.buffer_empty p = false) waited /\
    Serial.buffer_empty ready = true /\ 65 = wrap 8 65.
Proof.
  exact (proj1 (transmit_waits_for_buffer [0; 0x40; 0x20; 0x60] 65)
           [0x60] 65 eq_refl).
Defined.

(** ** One sample, one line *)

Lemma transmit_ready polls d :
  (0 < length (filter Serial.buffer_empty polls))%nat ->
  exists rest,
    Serial.USART_transmit polls d = Some (rest, wrap 8 d) /\
    length (filter Serial.buffer_empty rest) =
      (length (filter Serial.buffer_empty polls) - 1)%nat.
Proof.
  induction polls as [|p polls IH]; cbn [filter length Serial.USART_transmit];
    [lia|].
  destruct (Serial.buffer_empty p); cbn [length]; intros H.
  - exists polls; split; [reflexivity | lia].
  - exact (IH H).
Qed.

Lemma transmit_all_ready data : forall polls sent,
  (length data <= length (filter Serial.buffer_empty polls))%nat ->
  exists rest,
    Serial.transmit_all polls data sent =
      Some (rest, sent ++ map (wrap 8) data).
Proof.
  induction data as [|d data IH]; intros polls sent H;
    cbn [Serial.transmit_all map length] in *.
  - exists polls; rewrite app_nil_r; reflexivity.
  - destruct (transmit_ready polls d) as (rest & E & L); [lia|].
    rewrite E.
    destruct (IH rest (sent ++ [wrap 8 d])) as (rest' & E'); [lia|].
    exists rest'; rewrite E', <- app_assoc; reflexivity.
Qed.

Lemma load_chars c0 c1 c2 c3 :
  Serial.load [c0; c1; c2; c3] 0 = Some c0 /\
  Serial.load [c0; c1; c2; c3] 1 = Some c1 /\
  Serial.load [c0; c1; c2; c3] 2 = Some c2 /\
  Serial.load [c0; c1; c2; c3] 3 = Some c3.
Proof. repeat split. Qed.

Lemma wrap8_digit a : wrap 8 (48 + a mod 10) = 48 + a mod 10.
Proof.
  pose proof (Z.mod_pos_bound a 10 ltac:(lia)).
  apply wrap_small; change (2 ^ 8) with 256; lia.
Qed.

(** X17. One iteration of the serial main loop: with transmission
    switched off or with no new sample it sends nothing and leaves the
    globals as they are, so a sample taken while transmission is off
    stays pending; with transmission on and a new sample it sends the
    four decimal digits of the sample followed by CR and LF, clears the
    new-sample flag, and the next iteration sends nothing again until
    another conversion completes. *)
Theorem sample_sent_once chars0 polls s :
  (Serial.should_transmit s = false \/ Serial.has_new_sample s = false ->
   Serial.main_loop_body chars0 polls s = Some (polls, [], s)) /\
  (Serial.should_transmit s = true -> Serial.has_new_sample s = true ->
   length chars0 = 4%nat -> 0 <= Serial.sample s ->
   (6 <= length (filter Serial.buffer_empty polls))%nat ->
   exists rest s',
     Serial.main_loop_body chars0 polls s =
       Some (rest,
             [48 + (Serial.sample s / 1000) mod 10;
              48 + (Serial.sample s / 100) mod 10;
              48 + (Serial.sample s / 10) mod 10;
              48 + Serial.sample s mod 10; 13; 10],
             s') /\
     s' = Serial.mkState false (Serial.sample s) true /\
     forall polls',
       Serial.main_loop_body chars0 polls' s' = Some (polls', [], s')).
Proof.
  split.
  - unfold Serial.main_loop_body; intros [H|H]; rewrite H; cbn [negb];
      [|destruct (Serial.should_transmit s)]; reflexivity.
  - intros Ht Hn HL Hx Hp.
    unfold Serial.main_loop_body at 1; rewrite Ht, Hn; cbn [negb Serial.sample].
    rewrite (to_chars_digits chars0 (Serial.sample s) HL).
    destruct (load_chars (48 + (Serial.sample s / 1000) mod 10)
                (48 + (Serial.sample s / 100) mod 10)
                (48 + (Serial.sample s / 10) mod 10)
                (48 + Serial.sample s mod 10)) as (L0 & L1 & L2 & L3).
    rewrite L0, L1, L2, L3.
    destruct (transmit_all_ready
                [48 + (Serial.sample s / 1000) mod 10;
                 48 + (Serial.sample s / 100) mod 10;
                 48 + (Serial.sample s / 10) mod 10;
                 48 + Serial.sample s mod 10; 13; 10] polls [])
      as (rest & E); [exact Hp|].
    rewrite E; exists rest; eexists; split; [|split; [reflexivity|]].
    + cbn [app map].
      rewrite !wrap8_digit; reflexivity.
    + intros polls'; reflexivity.
Qed.

Lemma sample_sent_once_witness :
  exists rest s',
    Serial.main_loop_body [0; 0; 0; 0] [0x20; 0; 0x20; 0x20; 0x20; 0; 0x20; 0x20]
      (Serial.mkState true 512 true) =
      Some (rest, [48; 53; 49; 50; 13; 10], s') /\
    s' = Serial.mkState false 512 true /\
    forall polls',
      Serial.main_loop_body [0; 0; 0; 0] polls' s' = Some (polls', [], s').
Proof.
  exact (proj2 (sample_sent_once [0; 0; 0; 0]
                  [0x20; 0; 0x20; 0x20; 0x20; 0; 0x20; 0x20]
                  (Serial.mkState true 512 true))
           eq_refl eq_refl eq_refl ltac:(cbn; lia) ltac:(cbn; lia)).
Defined.
